(** * A hand-written multilayer perceptron: layers, loss head, train step, trainer

    Shallow embedding of [lab2/src2/MLP_manual.py].  The program is numpy code
    over 64-bit floats.  Scalar arithmetic is kept behind the interface
    [Scalar]: every definition and theorem below is parametric in the type of
    array entries and in the elementary operations on them, so that nothing
    proved here relies on an algebraic law that binary64 does not have.  What
    is modelled in full is everything around the arithmetic: array shapes,
    numpy broadcasting, integer (fancy) indexing, the exceptions raised, the
    attributes each method writes, and the order in which [MLP.backward]
    reads and writes the parameters. *)

From Stdlib Require Import ZArith Lia Reals String.
From stdpp Require Import base list.

Local Open Scope Z_scope.
Local Open Scope nat_scope.

(** ** Exceptions and results *)

Inductive exn : Type :=
| RuntimeError (msg : string)
| TypeError
| ValueError
| IndexError
| NameError
| ZeroDivisionError
| AttributeError.

Inductive res (A : Type) : Type :=
| Ok (a : A)
| Raise (e : exn).
Arguments Ok {A} a.
Arguments Raise {A} e.

#[global] Instance res_ret : MRet res := fun A a => Ok a.
#[global] Instance res_bind : MBind res := fun A B k r =>
  match r with
  | Ok a => k a
  | Raise e => Raise e
  end.

Definition is_Ok {A} (r : res A) : Prop :=
  match r with Ok _ => True | Raise _ => False end.

(** The message of the guard in [LinearLayer.backward]. *)
Definition no_input_msg : string := "No input to back-propagate through".

(** ** Two-dimensional arrays

    A numpy array of rank 2 carries its shape independently of its contents
    (an array with zero rows still has a column count), so the shape is
    stored next to the rows. *)

Record ndarray (A : Type) : Type := NDArray {
  nrows : nat;
  ncols : nat;
  data : list (list A)
}.
Arguments NDArray {A} nrows ncols data.
Arguments nrows {A} _.
Arguments ncols {A} _.
Arguments data {A} _.

Definition shape {A} (a : ndarray A) : nat * nat := (nrows a, ncols a).

Definition ndarray_wf {A} (a : ndarray A) : Prop :=
  length (data a) = nrows a /\ Forall (fun r => length r = ncols a) (data a).

Definition tabulate {A} (r c : nat) (f : nat -> nat -> A) : ndarray A :=
  NDArray r c (fmap (fun i => f i <$> seq 0 c) (seq 0 r)).

Definition get {A} `{Inhabited A} (a : ndarray A) (i j : nat) : A :=
  (data a !!! i) !!! j.

(** Elementwise application of a unary function (a numpy ufunc of one
    argument, or an operation between an array and a Python scalar). *)
Definition amap {A B} `{Inhabited A} (f : A -> B) (a : ndarray A) : ndarray B :=
  tabulate (nrows a) (ncols a) (fun i j => f (get a i j)).

(** numpy's broadcasting rule on one axis, and the index used on an operand
    whose axis has length 1. *)
Definition bdim (m n : nat) : option nat :=
  if m =? n then Some m
  else if m =? 1 then Some n
  else if n =? 1 then Some m
  else None.

Definition bidx (m i : nat) : nat := if m =? 1 then 0 else i.

(** Indexing with a possibly negative integer into an axis of length [n]. *)
Definition norm_index (n : nat) (i : Z) : option nat :=
  if ((0 <=? i) && (i <? Z.of_nat n))%Z then Some (Z.to_nat i)
  else if ((- Z.of_nat n <=? i) && (i <? 0))%Z then Some (Z.to_nat (i + Z.of_nat n))
  else None.

(** [np.arange(n)] for an integer [n]: empty when [n <= 0]. *)
Definition arange (n : Z) : list Z := fmap Z.of_nat (seq 0 (Z.to_nat n)).

(** Broadcasting of two one-dimensional index arrays against each other, as
    done by [a[idx0, idx1]]. *)
Definition broadcast_index (i0 i1 : list nat) : option (list (nat * nat)) :=
  if length i0 =? length i1 then Some (zip i0 i1)
  else match i0, i1 with
       | [r], _ => Some (fmap (fun c => (r, c)) i1)
       | _, [c] => Some (fmap (fun r => (r, c)) i0)
       | _, _ => None
       end.

Fixpoint norm_indices (n : nat) (l : list Z) : option (list nat) :=
  match l with
  | [] => Some []
  | i :: l' =>
      match norm_index n i, norm_indices n l' with
      | Some k, Some ks => Some (k :: ks)
      | _, _ => None
      end
  end.

(** The positions addressed by [a[idx0, idx1]] on an array of shape
    [(r, c)].  Every entry of each index array is bounds-checked (negative
    entries wrap once), then the two arrays are broadcast; either failure is
    an [IndexError]. *)
Definition fancy_positions (r c : nat) (idx0 idx1 : list Z) : res (list (nat * nat)) :=
  match norm_indices r idx0, norm_indices c idx1 with
  | Some i0, Some i1 =>
      match broadcast_index i0 i1 with
      | Some ps => Ok ps
      | None => Raise IndexError
      end
  | _, _ => Raise IndexError
  end.

(** [a[idx]] for a list of row numbers (the trainer only passes the entries
    of a permutation, which are not negative). *)
Definition take_rows {A} `{Inhabited A} (a : ndarray A) (idx : list nat) : res (ndarray A) :=
  if forallb (fun i => i <? nrows a) idx
  then Ok (tabulate (length idx) (ncols a) (fun i j => get a (idx !!! i) j))
  else Raise IndexError.

Definition take_entries {A} `{Inhabited A} (v : list A) (idx : list nat) : res (list A) :=
  if forallb (fun i => i <? length v) idx
  then Ok (fmap (fun i => v !!! i) idx)
  else Raise IndexError.

(** [np.argmax(a, axis=1)] on an integer matrix: the first position of the
    largest entry of each row. *)
Fixpoint argmax_from (best : Z) (besti : nat) (i : nat) (l : list Z) : nat :=
  match l with
  | [] => besti
  | x :: l' => if (best <? x)%Z then argmax_from x i (S i) l'
               else argmax_from best besti (S i) l'
  end.

Definition argmax_row (l : list Z) : nat :=
  match l with
  | [] => 0
  | x :: l' => argmax_from x 0 1 l'
  end.

Definition argmax_axis1 (a : ndarray Z) : res (list Z) :=
  if ncols a =? 0 then Raise ValueError
  else Ok (fmap (fun i => Z.of_nat (argmax_row (fmap (get a i) (seq 0 (ncols a)))))
               (seq 0 (nrows a))).

(** ** Scalars *)

Class Scalar (F : Type) : Type := {
  f_zero : F;                 (* 0.0 *)
  f_one : F;                  (* 1.0 *)
  f_of_Z : Z -> F;            (* conversion of a Python int *)
  f_add : F -> F -> F;
  f_sub : F -> F -> F;
  f_mul : F -> F -> F;
  f_div : F -> F -> F;
  f_neg : F -> F;
  f_max : F -> F -> F;        (* np.maximum *)
  f_exp : F -> F;             (* np.exp *)
  f_log : F -> F;             (* np.log *)
  f_tanh : F -> F;            (* np.tanh *)
  f_sqrt : F -> F;            (* np.sqrt *)
  f_pow : F -> Z -> F;        (* np.power with an integer exponent *)
  f_sum : list F -> F         (* np.add.reduce along one axis *)
}.

Section Model.
Context {F : Type} `{Sc : Scalar F}.

#[global] Instance scalar_inhabited : Inhabited F := populate f_zero.

Abbreviation array := (ndarray F).

(** ** numpy operations on float matrices *)

(** A binary ufunc on two matrices, with broadcasting; operands that cannot
    be broadcast against each other raise [ValueError]. *)
Definition broadcast2 (f : F -> F -> F) (a b : array) : res array :=
  match bdim (nrows a) (nrows b), bdim (ncols a) (ncols b) with
  | Some r, Some c =>
      Ok (tabulate r c (fun i j =>
            f (get a (bidx (nrows a) i) (bidx (ncols a) j))
              (get b (bidx (nrows b) i) (bidx (ncols b) j))))
  | _, _ => Raise ValueError
  end.

(** The augmented assignments [a -= b] and [a /= b]: the broadcast result has
    to fit the array that is written, otherwise [ValueError]. *)
Definition inplace2 (f : F -> F -> F) (a b : array) : res array :=
  r ← broadcast2 f a b;
  if (nrows r =? nrows a) && (ncols r =? ncols a) then Ok r else Raise ValueError.

Definition transpose (a : array) : array :=
  tabulate (ncols a) (nrows a) (fun i j => get a j i).

(** [np.matmul] and [np.dot] on two matrices. *)
Definition matmul (a b : array) : res array :=
  if ncols a =? nrows b
  then Ok (tabulate (nrows a) (ncols b) (fun i j =>
             f_sum (fmap (fun k => f_mul (get a i k) (get b k j)) (seq 0 (ncols a)))))
  else Raise ValueError.

(** [np.sum(a, axis=0, keepdims=True)] and [np.sum(a, axis=1, keepdims=True)]. *)
Definition sum_axis0 (a : array) : array :=
  tabulate 1 (ncols a) (fun _ j => f_sum (fmap (fun i => get a i j) (seq 0 (nrows a)))).

Definition sum_axis1 (a : array) : array :=
  tabulate (nrows a) 1 (fun i _ => f_sum (fmap (fun j => get a i j) (seq 0 (ncols a)))).

(** [np.max(a, axis=1, keepdims=True)]: a reduction without identity, which
    raises [ValueError] when the reduced axis is empty. *)
Definition max_axis1 (a : array) : res array :=
  if ncols a =? 0 then Raise ValueError
  else Ok (tabulate (nrows a) 1 (fun i _ =>
             foldl f_max (get a i 0) (fmap (get a i) (seq 1 (ncols a - 1))))).

Definition zeros (r c : nat) : array := tabulate r c (fun _ _ => f_zero).
Definition zeros_like (a : array) : array := zeros (nrows a) (ncols a).

(** [np.mean] of a vector. *)
Definition mean (v : list F) : F := f_div (f_sum v) (f_of_Z (Z.of_nat (length v))).

(** Reading and writing [a[idx0, idx1]] at positions already resolved by
    [fancy_positions]. *)
Definition read_positions (a : array) (ps : list (nat * nat)) : list F :=
  fmap (fun p => get a p.1 p.2) ps.

Definition write_positions (a : array) (ps : list (nat * nat)) (v : F) : array :=
  tabulate (nrows a) (ncols a) (fun i j =>
    if existsb (fun p => (p.1 =? i) && (p.2 =? j)) ps then v else get a i j).

(** ** LinearLayer *)

Record LinearLayer : Type := mkLinearLayer {
  input_size : nat;
  output_size : nat;
  last_input : option array;
  weights : array;
  bias : array;
  training : bool
}.

Definition set_last_input (x : option array) (self : LinearLayer) : LinearLayer :=
  mkLinearLayer (input_size self) (output_size self) x
                (weights self) (bias self) (training self).
Definition set_training (b : bool) (self : LinearLayer) : LinearLayer :=
  mkLinearLayer (input_size self) (output_size self) (last_input self)
                (weights self) (bias self) b.
Definition set_weights (w : array) (self : LinearLayer) : LinearLayer :=
  mkLinearLayer (input_size self) (output_size self) (last_input self)
                w (bias self) (training self).
Definition set_bias (b : array) (self : LinearLayer) : LinearLayer :=
  mkLinearLayer (input_size self) (output_size self) (last_input self)
                (weights self) b (training self).

(** [LinearLayer.__init__]; [noise i j] stands for the sample that
    [np.random.randn] draws for position [(i, j)].  [2 / input_size] is a
    division of Python ints. *)
Definition LinearLayer_init (input_size output_size : nat) (noise : nat -> nat -> F)
  : res LinearLayer :=
  let randn := tabulate input_size output_size noise in
  if input_size =? 0 then Raise ZeroDivisionError
  else
    let scale := f_sqrt (f_div (f_of_Z 2) (f_of_Z (Z.of_nat input_size))) in
    Ok (mkLinearLayer input_size output_size None
          (amap (fun v => f_mul v scale) randn)
          (zeros 1 output_size)
          false).

(** A method is a function from the object's state to an outcome and the
    object's state afterwards; what was assigned before an exception stays
    assigned. *)
Definition LinearLayer_forward (self : LinearLayer) (x : array) : res array * LinearLayer :=
  let self1 := if training self then set_last_input (Some x) self else self in
  (y ← matmul x (weights self1); broadcast2 f_add y (bias self1), self1).

(** The five components of the tuple a layer's [backward] returns; [None] is
    Python's [None]. *)
Definition backward_result : Type :=
  array * option array * option array * option array * option array.

Definition LinearLayer_backward (self : LinearLayer) (grad_y : array)
  : res backward_result * LinearLayer :=
  match last_input self with
  | None => (Raise (RuntimeError no_input_msg), self)
  | Some x =>
      let grad_bias := sum_axis0 grad_y in
      (grad_weights ← matmul (transpose x) grad_y;
       grad_x ← matmul grad_y (transpose (weights self));
       Ok (grad_x, Some (weights self), Some grad_weights, Some (bias self), Some grad_bias),
       self)
  end.

Definition LinearLayer_train (self : LinearLayer) : LinearLayer := set_training true self.
Definition LinearLayer_eval (self : LinearLayer) : LinearLayer := set_training false self.

(** ** Tanh *)

Record Tanh : Type := mkTanh {
  tanh_last_input : option array;
  is_training : bool
}.

Definition Tanh_init : Tanh := mkTanh None false.

Definition Tanh_forward (self : Tanh) (x : array) : res array * Tanh :=
  let self1 := if is_training self then mkTanh (Some x) (is_training self) else self in
  (Ok (amap f_tanh x), self1).

(** There is no guard on [last_input] in this method: with nothing cached
    the body evaluates [np.tanh(None)], for which the ufunc has no loop, and
    numpy raises its [TypeError]. *)
Definition Tanh_backward (self : Tanh) (grad_y : array) : res backward_result * Tanh :=
  match tanh_last_input self with
  | None => (Raise TypeError, self)
  | Some x =>
      let d := amap (f_sub f_one) (amap (fun v => f_pow v 2) (amap f_tanh x)) in
      (g ← broadcast2 f_mul d grad_y; Ok (g, None, None, None, None), self)
  end.

Definition Tanh_train (self : Tanh) : Tanh := mkTanh (tanh_last_input self) true.
Definition Tanh_eval (self : Tanh) : Tanh := mkTanh (tanh_last_input self) false.

(** ** The layer interface [NNLayer]: both subclasses override all four
    methods, so the [NotImplementedError] bodies of the base class are never
    run. *)

Inductive NNLayer : Type :=
| Linear (l : LinearLayer)
| TanhLayer (t : Tanh).

Definition NNLayer_forward (self : NNLayer) (x : array) : res array * NNLayer :=
  match self with
  | Linear l => let '(r, l') := LinearLayer_forward l x in (r, Linear l')
  | TanhLayer t => let '(r, t') := Tanh_forward t x in (r, TanhLayer t')
  end.

Definition NNLayer_backward (self : NNLayer) (grad_y : array)
  : res backward_result * NNLayer :=
  match self with
  | Linear l => let '(r, l') := LinearLayer_backward l grad_y in (r, Linear l')
  | TanhLayer t => let '(r, t') := Tanh_backward t grad_y in (r, TanhLayer t')
  end.

Definition NNLayer_train (self : NNLayer) : NNLayer :=
  match self with
  | Linear l => Linear (LinearLayer_train l)
  | TanhLayer t => TanhLayer (Tanh_train t)
  end.

Definition NNLayer_eval (self : NNLayer) : NNLayer :=
  match self with
  | Linear l => Linear (LinearLayer_eval l)
  | TanhLayer t => TanhLayer (Tanh_eval t)
  end.

(** ** SoftmaxCrossEntropy

    [__call__] takes [scores] and [labels]; the name [batch_size] in its body
    is not a parameter but a module-level name, bound only by the script's
    [__main__] block.  [g_batch_size] is the value of that global: [None]
    when the name is unbound. *)

Definition read_global (g : option Z) : res Z :=
  match g with
  | Some v => Ok v
  | None => Raise NameError
  end.

Definition softmax (scores : array) : res array :=
  m ← max_axis1 scores;
  shifted ← broadcast2 f_sub scores m;
  let e := amap f_exp shifted in
  inplace2 f_div e (sum_axis1 e).

Definition SoftmaxCrossEntropy_call (g_batch_size : option Z)
    (scores : array) (labels : list Z) : res (F * array) :=
  probs ← softmax scores;
  batch_size ← read_global g_batch_size;
  ps ← fancy_positions (nrows probs) (ncols probs) (arange batch_size) labels;
  let positive_scores := read_positions probs ps in
  let loss := mean (fmap f_neg (fmap f_log positive_scores)) in
  let one_hot := write_positions (zeros_like probs) ps f_one in
  d ← broadcast2 f_sub probs one_hot;
  Ok (loss, amap (fun v => f_div v (f_of_Z batch_size)) d).

(** ** State and exceptions together

    A computation on a mutable object: it ends normally or by raising, and
    in both cases leaves a state behind. *)

Definition stM (S A : Type) : Type := S -> res A * S.

Definition st_ret {S A} (a : A) : stM S A := fun s => (Ok a, s).

Definition st_bind {S A B} (c : stM S A) (k : A -> stM S B) : stM S B :=
  fun s =>
    match c s with
    | (Ok a, s1) => k a s1
    | (Raise e, s1) => (Raise e, s1)
    end.

Definition st_lift {S A} (r : res A) : stM S A := fun s => (r, s).

Notation "'let!' x ':=' c 'in' k" := (st_bind c (fun x => k))
  (at level 10, x pattern, c at level 100, k at level 200).

(** ** MLP *)

Record MLP : Type := mkMLP {
  layer_size : list nat;
  layers : list NNLayer
}.

(** The loop of [MLP.__init__] over a chain of widths: a [LinearLayer] per
    consecutive pair, and a [Tanh] after each but the last.  [noise k] is the
    sampling of the [k]-th call of [np.random.randn]. *)
Fixpoint build_layers (noise : nat -> nat -> nat -> F) (k : nat) (sizes : list nat)
  : res (list NNLayer) :=
  match sizes with
  | a :: ((b :: rest) as tl) =>
      l ← LinearLayer_init a b (noise k);
      ls ← build_layers noise (S k) tl;
      Ok (Linear l :: (match rest with [] => [] | _ => [TanhLayer Tanh_init] end) ++ ls)
  | _ => Ok []
  end.

Definition MLP_init_sizes (sizes : list nat) (noise : nat -> nat -> nat -> F) : res MLP :=
  ls ← build_layers noise 0 sizes;
  Ok (mkMLP sizes ls).

Definition MLP_init (noise : nat -> nat -> nat -> F) : res MLP :=
  MLP_init_sizes [10; 10; 8; 8; 4] noise.

(** [for layer in self.layers: x = layer.forward(x)] *)
Fixpoint forward_loop (ls : list NNLayer) (x : array) : res array * list NNLayer :=
  match ls with
  | [] => (Ok x, [])
  | l :: rest =>
      match NNLayer_forward l x with
      | (Ok y, l') => let '(r, rest') := forward_loop rest y in (r, l' :: rest')
      | (Raise e, l') => (Raise e, l' :: rest)
      end
  end.

Definition with_layers {A} (c : stM (list NNLayer) A) : stM MLP A :=
  fun self => let '(r, ls) := c (layers self) in (r, mkMLP (layer_size self) ls).

Definition MLP_forward (x : array) : stM MLP array :=
  with_layers (fun ls => forward_loop ls x).

(** The four lists that [MLP.backward] fills.  [weights] and [bias] in the
    tuple returned by [LinearLayer.backward] are the layer's own arrays, not
    copies, and the later [w -= ...] writes into them; each layer owns its two
    arrays (created in its [__init__], never shared or reassigned), so such a
    reference is recorded as the position of the owning layer in
    [self.layers]. *)
Record param_lists : Type := mkLists {
  weights_list : list nat;
  grad_weights_list : list (option array);
  bias_list : list (option nat);
  grad_bias_list : list (option array)
}.

Definition no_lists : param_lists := mkLists [] [] [] [].

Definition collect (i : nat) (r : backward_result) (pl : param_lists) : param_lists :=
  match r with
  | (_, w, gw, b, gb) =>
      match w with
      | Some _ =>
          mkLists (weights_list pl ++ [i]) (grad_weights_list pl ++ [gw])
                  (bias_list pl ++ [match b with Some _ => Some i | None => None end])
                  (grad_bias_list pl ++ [gb])
      | None => pl
      end
  end.

(** [for l in reversed(self.layers)]: the layers are visited by position,
    last first; [backward] runs on the layer object found in the store. *)
Fixpoint sweep (idxs : list nat) (grad : array) (pl : param_lists)
  : stM (list NNLayer) (array * param_lists) :=
  match idxs with
  | [] => st_ret (grad, pl)
  | i :: rest => fun st =>
      match st !! i with
      | None => (Raise IndexError, st)
      | Some l =>
          let '(r, l') := NNLayer_backward l grad in
          let st1 := <[i := l']> st in
          match r with
          | Raise e => (Raise e, st1)
          | Ok t => sweep rest t.1.1.1.1 (collect i t pl) st1
          end
      end
  end.

(** [w -= gw * lr] and [b -= gb * lr] through the recorded references. *)
Definition sgd_weights (w : nat) (gw : option array) (lr : F) : stM (list NNLayer) unit :=
  fun st =>
    match gw, st !! w with
    | Some g, Some (Linear l) =>
        match inplace2 f_sub (weights l) (amap (fun v => f_mul v lr) g) with
        | Ok w' => (Ok tt, <[w := Linear (set_weights w' l)]> st)
        | Raise e => (Raise e, st)
        end
    | _, _ => (Raise TypeError, st)
    end.

Definition sgd_bias (b : option nat) (gb : option array) (lr : F) : stM (list NNLayer) unit :=
  fun st =>
    match b, gb with
    | Some i, Some g =>
        match st !! i with
        | Some (Linear l) =>
            match inplace2 f_sub (bias l) (amap (fun v => f_mul v lr) g) with
            | Ok b' => (Ok tt, <[i := Linear (set_bias b' l)]> st)
            | Raise e => (Raise e, st)
            end
        | _ => (Raise TypeError, st)
        end
    | _, _ => (Raise TypeError, st)
    end.

Fixpoint update_loop (zs : list (nat * option array * option nat * option array)) (lr : F)
  : stM (list NNLayer) unit :=
  match zs with
  | [] => st_ret tt
  | (w, gw, b, gb) :: rest =>
      let! _ := sgd_weights w gw lr in
      let! _ := sgd_bias b gb lr in
      update_loop rest lr
  end.

Definition zip_lists (pl : param_lists) : list (nat * option array * option nat * option array) :=
  zip (zip (zip (weights_list pl) (grad_weights_list pl)) (bias_list pl)) (grad_bias_list pl).

Definition MLP_backward (g_batch_size : option Z) (input : array) (label : list Z) (lr : F)
  : stM MLP F :=
  let! pred := MLP_forward input in
  let! lg := st_lift (SoftmaxCrossEntropy_call g_batch_size pred label) in
  with_layers (fun st =>
    (let! gp := sweep (rev (seq 0 (length st))) lg.2 no_lists in
     let! _ := update_loop (zip_lists gp.2) lr in
     st_ret lg.1) st).

Definition MLP_train : stM MLP unit :=
  fun self => (Ok tt, mkMLP (layer_size self) (fmap NNLayer_train (layers self))).

Definition MLP_eval : stM MLP unit :=
  fun self => (Ok tt, mkMLP (layer_size self) (fmap NNLayer_eval (layers self))).

(** ** The trainer *)

Definition LOSS_STEP : nat := 4.
Definition PRINT_NET : bool := true.

(** The local variables of [train] that the loops update, next to the
    network. *)
Record train_state : Type := mkTrain {
  mlp : MLP;
  global_step : nat;
  accum_loss : F;
  loss_list : list F
}.

Definition on_mlp {A} (c : stM MLP A) : stM train_state A :=
  fun ts =>
    let '(r, m) := c (mlp ts) in
    (r, mkTrain m (global_step ts) (accum_loss ts) (loss_list ts)).

(** The body of [while start_idx < num_input], up to the report; [print] has
    no effect on the state and is left out. *)
Definition train_batch (g_batch_size : option Z) (lr : F) (inputs : array)
    (input_labels : list Z) (shuffle_idx : list nat) (num_input batch_size start_idx : nat)
  : stM train_state unit :=
  let end_idx := Nat.min (start_idx + batch_size) num_input in
  let batch_idx := take (end_idx - start_idx) (drop start_idx shuffle_idx) in
  let! batch_input := st_lift (take_rows inputs batch_idx) in
  let! batch_label := st_lift (take_entries input_labels batch_idx) in
  let! loss := on_mlp (MLP_backward g_batch_size batch_input batch_label lr) in
  fun ts =>
    let step := S (global_step ts) in
    let acc := f_add (accum_loss ts) loss in
    if step mod LOSS_STEP =? 0
    then (Ok tt, mkTrain (mlp ts) step f_zero
                   (loss_list ts ++ [f_div acc (f_of_Z (Z.of_nat LOSS_STEP))]))
    else (Ok tt, mkTrain (mlp ts) step acc (loss_list ts)).

(** The [while] loop of one epoch.  [start_idx] grows by [batch_size] per
    turn, so with [batch_size = 0] the loop does not end by itself; [fuel]
    bounds the number of turns and [None] says it was used up. *)
Fixpoint batch_loop (fuel : nat) (g_batch_size : option Z) (lr : F) (inputs : array)
    (input_labels : list Z) (shuffle_idx : list nat) (num_input batch_size start_idx : nat)
    (ts : train_state) : option (res unit * train_state) :=
  if start_idx <? num_input then
    match fuel with
    | O => None
    | S fuel' =>
        match train_batch g_batch_size lr inputs input_labels shuffle_idx
                          num_input batch_size start_idx ts with
        | (Ok _, ts1) =>
            batch_loop fuel' g_batch_size lr inputs input_labels shuffle_idx
                       num_input batch_size (start_idx + batch_size) ts1
        | (Raise e, ts1) => Some (Raise e, ts1)
        end
    end
  else Some (Ok tt, ts).

(** [for epoch in range(epochs)]; [permutation e] is what
    [np.random.permutation(num_input)] returns in epoch [e]. *)
Fixpoint epoch_loop (es : list nat) (g_batch_size : option Z) (lr : F) (inputs : array)
    (input_labels : list Z) (permutation : nat -> list nat) (num_input batch_size : nat)
    (ts : train_state) : option (res unit * train_state) :=
  match es with
  | [] => Some (Ok tt, ts)
  | epoch :: es' =>
      match batch_loop num_input g_batch_size lr inputs input_labels (permutation epoch)
                       num_input batch_size 0 ts with
      | Some (Ok _, ts1) =>
          epoch_loop es' g_batch_size lr inputs input_labels permutation
                     num_input batch_size ts1
      | other => other
      end
  end.

(** The final dump reads [.weights] and [.bias] of the layers at even
    positions. *)
Definition print_net (ls : list NNLayer) : res unit :=
  if forallb (fun p : nat * NNLayer =>
                if Nat.even p.1 then match p.2 with Linear _ => true | TanhLayer _ => false end
                else true)
             (imap pair ls)
  then Ok tt else Raise AttributeError.

Definition train (g_batch_size : option Z) (permutation : nat -> list nat)
    (m : MLP) (epochs : nat) (lr : F) (inputs : array) (input_labels : ndarray Z)
    (batch_size : nat) : option (res (list F) * MLP) :=
  let m1 := (MLP_train m).2 in
  let num_input := nrows inputs in
  match argmax_axis1 input_labels with
  | Raise e => Some (Raise e, m1)
  | Ok labels =>
      match epoch_loop (seq 0 epochs) g_batch_size lr inputs labels permutation
                       num_input batch_size (mkTrain m1 0 f_zero []) with
      | None => None
      | Some (Raise e, ts) => Some (Raise e, mlp ts)
      | Some (Ok _, ts) =>
          if PRINT_NET
          then match print_net (layers (mlp ts)) with
               | Ok _ => Some (Ok (loss_list ts), mlp ts)
               | Raise e => Some (Raise e, mlp ts)
               end
          else Some (Ok (loss_list ts), mlp ts)
      end
  end.

(** ** Notions used in the statements *)

(** The calls a client can make on one layer between two [backward]s. *)
Inductive layer_op : Type :=
| OpTrain
| OpEval
| OpForward (x : array).

Definition NNLayer_step (self : NNLayer) (op : layer_op) : NNLayer :=
  match op with
  | OpTrain => NNLayer_train self
  | OpEval => NNLayer_eval self
  | OpForward x => (NNLayer_forward self x).2
  end.

Definition is_OpTrain (op : layer_op) : bool :=
  match op with OpTrain => true | _ => false end.

Definition nn_last_input (self : NNLayer) : option array :=
  match self with
  | Linear l => last_input l
  | TanhLayer t => tanh_last_input t
  end.

Definition nn_training (self : NNLayer) : bool :=
  match self with
  | Linear l => training l
  | TanhLayer t => is_training t
  end.

(** The trainable arrays of a layer. *)
Definition nn_params (self : NNLayer) : option (array * array) :=
  match self with
  | Linear l => Some (weights l, bias l)
  | TanhLayer _ => None
  end.

(** The shapes [__init__] gives to the parameters of a layer from
    [input_size] to [output_size]. *)
Definition linear_wf (a b : nat) (l : LinearLayer) : Prop :=
  shape (weights l) = (a, b) /\ shape (bias l) = (1, b).

(** The layers of a network over the chain of widths [sizes]: linear
    layers between consecutive widths, with a [Tanh] after each but the
    last. *)
Inductive chain_wf : list nat -> list NNLayer -> Prop :=
| chain_wf_one a : chain_wf [a] []
| chain_wf_last a b l :
    linear_wf a b l -> chain_wf [a; b] [Linear l]
| chain_wf_cons a b c rest l t ls :
    linear_wf a b l ->
    chain_wf (b :: c :: rest) ls ->
    chain_wf (a :: b :: c :: rest) (Linear l :: TanhLayer t :: ls).

Definition mlp_wf (m : MLP) : Prop := chain_wf (layer_size m) (layers m).

(** The parameter gradients in the tuple a layer's [backward] returns. *)
Definition param_grads (t : backward_result) : option (array * array) :=
  match t with
  | (_, Some _, Some gw, Some _, Some gb) => Some (gw, gb)
  | _ => None
  end.

(** The chain rule applied once from the last layer to the first over a
    list of layers that nothing modifies meanwhile: the gradient handed to the
    layer before the list, and for every layer its parameter gradients. *)
Fixpoint backprop (ls : list NNLayer) (grad : array)
  : res (array * list (option (array * array))) :=
  match ls with
  | [] => Ok (grad, [])
  | l :: rest =>
      r ← backprop rest grad;
      t ← (NNLayer_backward l r.1).1;
      Ok (t.1.1.1.1, param_grads t :: r.2)
  end.

(** One step of gradient descent on an array, entry by entry. *)
Definition descend (lr : F) (p g : array) : array :=
  tabulate (nrows p) (ncols p) (fun i j => f_sub (get p i j) (f_mul (get g i j) lr)).

Definition sgd_layer (lr : F) (l : NNLayer) (g : option (array * array)) : NNLayer :=
  match l, g with
  | Linear ll, Some (gw, gb) =>
      Linear (set_bias (descend lr (bias ll) gb)
                (set_weights (descend lr (weights ll) gw) ll))
  | _, _ => l
  end.

(** The gradients have the shapes of the parameters they belong to. *)
Definition grads_fit (l : NNLayer) (g : option (array * array)) : Prop :=
  match l, g with
  | Linear ll, Some (gw, gb) =>
      shape gw = shape (weights ll) /\ shape gb = shape (bias ll)
  | TanhLayer _, None => True
  | _, _ => False
  end.

(** What the sweep records for the layer at position [i] with parameter
    gradients [g], and for the layers at positions [k, k+1, ...] with
    gradients [gs], in the order of the sweep (last layer first). *)
Definition entry_of (i : nat) (g : option (array * array))
  : list (nat * option array * option nat * option array) :=
  match g with
  | Some (gw, gb) => [(i, Some gw, Some i, Some gb)]
  | None => []
  end.

Fixpoint entries (k : nat) (gs : list (option (array * array)))
  : list (nat * option array * option nat * option array) :=
  match gs with
  | [] => []
  | g :: rest => entries (S k) rest ++ entry_of k g
  end.

(** The four lists grow in lockstep. *)
Definition lists_aligned (pl : param_lists) : Prop :=
  length (grad_weights_list pl) = length (weights_list pl) /\
  length (bias_list pl) = length (weights_list pl) /\
  length (grad_bias_list pl) = length (weights_list pl).

(** The one-hot encoding of a label vector, entry [(i, j)]. *)
Definition one_hot_entry (labels : list nat) (i j : nat) : F :=
  if decide (labels !! i = Some j) then f_one else f_zero.

(** The train step as the specification words it: forward pass, loss, then
    all gradients by the chain rule over the layers as the forward pass left
    them, and only then the updates, one pair of writes per linear layer. *)
Definition train_step_two_phase (g_batch_size : option Z) (input : array)
    (label : list Z) (lr : F) : stM MLP F :=
  let! pred := MLP_forward input in
  let! lg := st_lift (SoftmaxCrossEntropy_call g_batch_size pred label) in
  with_layers (fun st =>
    match backprop st lg.2 with
    | Raise e => (Raise e, st)
    | Ok (_, gs) => (let! _ := update_loop (entries 0 gs) lr in st_ret lg.1) st
    end).

(** After a forward pass in training mode on a batch of [B] rows: every
    layer caches an input of [B] rows whose width is the layer's input width;
    [cin] and [cout] are the widths before and after the layers. *)
Definition layer_cached (B : nat) (l : NNLayer) (cin cout : nat) : Prop :=
  match l with
  | Linear ll =>
      exists x, last_input ll = Some x /\ shape x = (B, cin) /\ linear_wf cin cout ll
  | TanhLayer t =>
      exists x, tanh_last_input t = Some x /\ shape x = (B, cin) /\ cout = cin
  end.

Inductive chain_cached (B : nat) : nat -> list NNLayer -> nat -> Prop :=
| chain_cached_nil c : chain_cached B c [] c
| chain_cached_cons cin mid cout l ls :
    layer_cached B l cin mid ->
    chain_cached B mid ls cout ->
    chain_cached B cin (l :: ls) cout.

(** The reverse sweep run against a frozen list of layers: what [sweep]
    returns, without a store. *)
Fixpoint frozen_sweep (ls : list NNLayer) (idxs : list nat) (grad : array)
    (pl : param_lists) : res (array * param_lists) :=
  match idxs with
  | [] => Ok (grad, pl)
  | i :: rest =>
      match ls !! i with
      | None => Raise IndexError
      | Some l =>
          t ← (NNLayer_backward l grad).1;
          frozen_sweep ls rest t.1.1.1.1 (collect i t pl)
      end
  end.

End Model.

Arguments LinearLayer F : clear implicits.
Arguments Tanh F : clear implicits.
Arguments NNLayer F : clear implicits.
Arguments MLP F : clear implicits.
Arguments layer_op F : clear implicits.
Arguments param_lists F : clear implicits.
Arguments backward_result F : clear implicits.
Arguments train_state F : clear implicits.

(** ** Exact real arithmetic as an instance of the scalar interface *)

#[global] Instance RealScalar : Scalar R := {|
  f_zero := 0%R;
  f_one := 1%R;
  f_of_Z := IZR;
  f_add := Rplus;
  f_sub := Rminus;
  f_mul := Rmult;
  f_div := Rdiv;
  f_neg := Ropp;
  f_max := Rmax;
  f_exp := exp;
  f_log := ln;
  f_tanh := tanh;
  f_sqrt := sqrt;
  f_pow := powerRZ;
  f_sum := fold_right Rplus 0%R
|}.

(** ** A concrete network and batch over the reals *)

Definition demo_noise : nat -> nat -> nat -> R :=
  fun k i j => IZR (Z.of_nat (k + i + j)).

(** The network the script builds, switched to training mode. *)
Definition demo_mlp : MLP R :=
  match MLP_init demo_noise with
  | Ok m => (MLP_train m).2
  | Raise _ => mkMLP [] []
  end.

Definition demo_input : ndarray R :=
  tabulate 2 10 (fun i j => IZR (Z.of_nat (i * j))).

Definition demo_label : list Z := [3; 1]%Z.

Definition demo_pred : ndarray R :=
  match (MLP_forward demo_input demo_mlp).1 with
  | Ok y => y
  | Raise _ => zeros 0 0
  end.

Definition demo_loss_grad : R * ndarray R :=
  match SoftmaxCrossEntropy_call (Some 2%Z) demo_pred demo_label with
  | Ok lg => lg
  | Raise _ => (0%R, zeros 0 0)
  end.

(** A linear layer from 2 to 3 that has seen a batch of 4 rows. *)
Definition demo_batch : ndarray R :=
  tabulate 4 2 (fun i j => IZR (Z.of_nat (i + j))).

Definition demo_linear : LinearLayer R :=
  mkLinearLayer 2 3 (Some demo_batch)
    (tabulate 2 3 (fun i j => IZR (Z.of_nat (i * j)))) (zeros 1 3) true.

Definition demo_grad : ndarray R :=
  tabulate 4 3 (fun i j => IZR (Z.of_nat (i + 2 * j))).

(** ** More concrete layers and arrays *)

(** A [Tanh] layer that has seen a batch of 4 rows and 3 columns. *)
Definition demo_tanh : Tanh R := mkTanh (Some demo_grad) true.

(** A gradient of one row. *)
Definition demo_row : ndarray R :=
  tabulate 1 3 (fun _ j => IZR (Z.of_nat j)).

(** A gradient of 2 rows, which does not broadcast against 4 rows. *)
Definition demo_two_rows : ndarray R :=
  tabulate 2 3 (fun i j => IZR (Z.of_nat (i + j))).


(** Scores for a batch of 3 rows over 4 classes. *)
Definition demo_scores : ndarray R :=
  tabulate 3 4 (fun i j => IZR (Z.of_nat (i * j))).


(** The network the script builds, as its constructor leaves it. *)
Definition demo_fresh_mlp : MLP R :=
  match MLP_init demo_noise with
  | Ok m => m
  | Raise _ => mkMLP [] []
  end.

(** An input whose width is not the network's input width. *)
Definition demo_narrow_input : ndarray R :=
  tabulate 2 7 (fun i j => IZR (Z.of_nat (i + j))).


(** A network over the chain [sizes], all of whose layers are in training
    mode: what [train] establishes before its first step. *)
Definition ready {F : Type} (sizes : list nat) (m : MLP F) : Prop :=
  layer_size m = sizes /\
  chain_wf sizes (layers m) /\
  Forall (fun l => nn_training l = true) (layers m).

(** One-hot label rows of 3 samples over 4 classes, and a dataset of 3
    samples. *)
Definition demo_onehot : ndarray Z :=
  tabulate 3 4 (fun i j => if j =? i then 1%Z else 0%Z).

Definition demo_dataset : ndarray R :=
  tabulate 3 10 (fun i j => IZR (Z.of_nat (i + j))).


(** The one-hot rows [np.eye(K)[labels]] (as integers), which the script
    builds and hands to [train]. *)
Definition one_hot_rows (K : nat) (labels : list nat) : ndarray Z :=
  tabulate (length labels) K (fun i j => if j =? labels !!! i then 1%Z else 0%Z).


(** A dataset of 4 samples with one-hot labels, and a shuffling of its
    indices. *)
Definition demo_dataset4 : ndarray R :=
  tabulate 4 10 (fun i j => IZR (Z.of_nat (i + j))).

Definition demo_onehot4 : ndarray Z := one_hot_rows 4 [2; 0; 3; 1].

Definition demo_permutation : nat -> list nat := fun _ => [2; 0; 3; 1].


(** A dataset of 5 samples with one-hot labels: not a multiple of 2. *)
Definition demo_dataset5 : ndarray R :=
  tabulate 5 10 (fun i j => IZR (Z.of_nat (i + j))).

Definition demo_onehot5 : ndarray Z := one_hot_rows 4 [2; 0; 3; 1; 1].

Definition demo_permutation5 : nat -> list nat := fun _ => [4; 2; 0; 3; 1].


(** * Properties *)

Section Properties.
Context {F : Type} `{Sc : Scalar F}.
Implicit Types (a b x grad_y : ndarray F).

(** ** Arrays *)

Lemma get_tabulate {A} `{Inhabited A} (r c : nat) (f : nat -> nat -> A) (i j : nat) :
  i < r -> j < c -> get (tabulate r c f) i j = f i j.
Proof.
  intros Hi Hj. unfold get, tabulate; simpl.
  erewrite list_lookup_total_fmap by (rewrite length_seq; lia).
  rewrite lookup_total_seq_lt by lia.
  erewrite list_lookup_total_fmap by (rewrite length_seq; lia).
  rewrite lookup_total_seq_lt by lia. reflexivity.
Qed.

Lemma tabulate_wf {A} (r c : nat) (f : nat -> nat -> A) : ndarray_wf (tabulate r c f).
Proof.
  split; simpl.
  - rewrite length_fmap, length_seq. reflexivity.
  - apply Forall_fmap, Forall_forall. intros i _. simpl.
    rewrite length_fmap, length_seq. reflexivity.
Qed.

Lemma tabulate_ext {A} (r c : nat) (f g : nat -> nat -> A) :
  (forall i j, i < r -> j < c -> f i j = g i j) -> tabulate r c f = tabulate r c g.
Proof.
  intros Hfg. unfold tabulate. f_equal.
  apply list_fmap_ext. intros k i Hk.
  apply lookup_seq in Hk as [-> Hi].
  apply list_fmap_ext. intros k' j Hk'.
  apply lookup_seq in Hk' as [-> Hj]. apply Hfg; lia.
Qed.

Lemma bidx_lt (m i : nat) : i < m -> bidx m i = i.
Proof.
  intros Hi. unfold bidx. destruct (Nat.eqb_spec m 1); [lia | reflexivity].
Qed.

Lemma bdim_same (m : nat) : bdim m m = Some m.
Proof. unfold bdim. rewrite Nat.eqb_refl. reflexivity. Qed.

Lemma matmul_ok a b :
  ncols a = nrows b ->
  matmul a b = Ok (tabulate (nrows a) (ncols b) (fun i j =>
     f_sum ((fun k => f_mul (get a i k) (get b k j)) <$> seq 0 (ncols a)))).
Proof. intros E. unfold matmul. rewrite E, Nat.eqb_refl. reflexivity. Qed.

Lemma fmap_seq_ext {B} (f g : nat -> B) (s n : nat) :
  (forall k, s <= k < s + n -> f k = g k) -> f <$> seq s n = g <$> seq s n.
Proof.
  intros Hfg. apply list_fmap_ext. intros i k Hk.
  apply lookup_seq in Hk as [-> Hi]. apply Hfg. lia.
Qed.

(** ** Frame properties of the layer methods *)

Lemma LinearLayer_backward_state (self : LinearLayer F) grad_y :
  (LinearLayer_backward self grad_y).2 = self.
Proof. unfold LinearLayer_backward. destruct (last_input self); reflexivity. Qed.

Lemma Tanh_backward_state (self : Tanh F) grad_y :
  (Tanh_backward self grad_y).2 = self.
Proof. unfold Tanh_backward. destruct (tanh_last_input self); reflexivity. Qed.

Lemma NNLayer_backward_state (self : NNLayer F) grad_y :
  (NNLayer_backward self grad_y).2 = self.
Proof.
  destruct self as [l | t]; simpl.
  - pose proof (LinearLayer_backward_state l grad_y) as E.
    destruct (LinearLayer_backward l grad_y) as [r l']; simpl in *; congruence.
  - pose proof (Tanh_backward_state t grad_y) as E.
    destruct (Tanh_backward t grad_y) as [r t']; simpl in *; congruence.
Qed.

Lemma NNLayer_backward_eta (self : NNLayer F) grad_y :
  NNLayer_backward self grad_y = ((NNLayer_backward self grad_y).1, self).
Proof.
  rewrite <- (NNLayer_backward_state self grad_y) at 3.
  destruct (NNLayer_backward self grad_y); reflexivity.
Qed.

Lemma sweep_frozen (idxs : list nat) (grad : ndarray F) (pl : param_lists F) (st : list (NNLayer F)) :
  sweep idxs grad pl st = (frozen_sweep st idxs grad pl, st).
Proof.
  revert grad pl. induction idxs as [| i rest IH]; intros grad pl; simpl.
  - reflexivity.
  - destruct (st !! i) as [l |] eqn:Hl; [| reflexivity].
    rewrite (NNLayer_backward_eta l grad).
    rewrite (list_insert_id st i l Hl).
    destruct (NNLayer_backward l grad).1 as [t | e]; simpl; [apply IH | reflexivity].
Qed.

Lemma forward_loop_params (ls : list (NNLayer F)) x :
  nn_params <$> (forward_loop ls x).2 = nn_params <$> ls.
Proof.
  revert x. induction ls as [| l rest IH]; intros x; simpl; [reflexivity |].
  assert (Hl : nn_params (NNLayer_forward l x).2 = nn_params l).
  { destruct l as [l | t]; simpl; [| reflexivity].
    unfold set_last_input. destruct (training l); reflexivity. }
  destruct (NNLayer_forward l x) as [[y | e] l']; simpl in *.
  - specialize (IH y). destruct (forward_loop rest y) as [r rest']; simpl in *.
    f_equal; [exact Hl | exact IH].
  - f_equal. exact Hl.
Qed.

(** C9. [backward] writes no attribute: after [LinearLayer.backward] the
    layer holds the same weights, bias, cached input and training flag as
    before, and after [Tanh.backward] the same cached input and training flag,
    whether the call returns or raises.  Hence the whole reverse sweep of
    [MLP.backward] leaves every layer as it found it.  The forward pass and
    the mode switches do not touch weights or bias either, so within
    [MLP.backward] these arrays are written by the update loop only. *)
Theorem backward_leaves_layer_state_unchanged :
  (forall (self : LinearLayer F) grad_y, (LinearLayer_backward self grad_y).2 = self) /\
  (forall (self : Tanh F) grad_y, (Tanh_backward self grad_y).2 = self) /\
  (forall idxs (grad : ndarray F) pl (st : list (NNLayer F)), (sweep idxs grad pl st).2 = st) /\
  (forall (m : MLP F) x, nn_params <$> layers (MLP_forward x m).2 = nn_params <$> layers m) /\
  (forall (self : NNLayer F),
      nn_params (NNLayer_train self) = nn_params self /\
      nn_params (NNLayer_eval self) = nn_params self).
Proof.
  split; [exact LinearLayer_backward_state |].
  split; [exact Tanh_backward_state |].
  split; [intros; rewrite sweep_frozen; reflexivity |].
  split.
  - intros m x. unfold MLP_forward, with_layers.
    pose proof (forward_loop_params (layers m) x) as E.
    destruct (forward_loop (layers m) x) as [r ls]; exact E.
  - intros [l | t]; split; reflexivity.
Qed.

(** ** Missing cached input *)

Lemma LinearLayer_backward_without_cached_input (self : LinearLayer F) grad_y :
  last_input self = None ->
  LinearLayer_backward self grad_y = (Raise (RuntimeError no_input_msg), self).
Proof. intros E. unfold LinearLayer_backward. rewrite E. reflexivity. Qed.

(** C2 (at the failing input). A [Tanh] layer on which no training-mode
    [forward] has run has no cached input; its [backward] does not raise the
    "no cached input" error of [LinearLayer.backward] but the [TypeError] of
    [np.tanh(None)]. *)
Theorem Tanh_backward_without_cached_input (mode : bool) grad_y :
  Tanh_backward (mkTanh None mode) grad_y = (Raise TypeError, mkTanh None mode) /\
  (Tanh_backward (mkTanh None mode) grad_y).1 <> Raise (RuntimeError no_input_msg).
Proof. split; [reflexivity | discriminate]. Qed.

(** ** Gradients of the linear layer *)

(** C5. With a cached input of shape [batch, input_size], weights of shape
    [input_size, output_size] and an upstream gradient of shape
    [batch, output_size], [LinearLayer.backward] returns the tuple
    [(grad_x, W, grad_weights, b, grad_bias)] where [grad_bias] is the
    column sum of [grad_y] with shape [1, output_size], [grad_weights] is
    [last_input^T . grad_y] with shape [input_size, output_size], and
    [grad_x] is [grad_y . W^T] with shape [batch, input_size]. *)
Theorem LinearLayer_backward_gradients (self : LinearLayer F) x grad_y (batch : nat) :
  last_input self = Some x ->
  shape x = (batch, input_size self) ->
  shape (weights self) = (input_size self, output_size self) ->
  shape grad_y = (batch, output_size self) ->
  exists grad_x grad_weights grad_bias,
    LinearLayer_backward self grad_y =
      (Ok (grad_x, Some (weights self), Some grad_weights, Some (bias self), Some grad_bias),
       self) /\
    shape grad_bias = (1, output_size self) /\
    (forall j, j < output_size self ->
       get grad_bias 0 j = f_sum ((fun i => get grad_y i j) <$> seq 0 batch)) /\
    shape grad_weights = (input_size self, output_size self) /\
    (forall i j, i < input_size self -> j < output_size self ->
       get grad_weights i j =
         f_sum ((fun k => f_mul (get x k i) (get grad_y k j)) <$> seq 0 batch)) /\
    shape grad_x = (batch, input_size self) /\
    (forall i j, i < batch -> j < input_size self ->
       get grad_x i j =
         f_sum ((fun k => f_mul (get grad_y i k) (get (weights self) j k))
                  <$> seq 0 (output_size self))).
Proof.
  intros Hx Sx Sw Sg. unfold shape in *.
  injection Sx as Rx Cx. injection Sw as Rw Cw. injection Sg as Rg Cg.
  unfold LinearLayer_backward. rewrite Hx.
  rewrite (matmul_ok (transpose x) grad_y) by (simpl; congruence).
  rewrite (matmul_ok grad_y (transpose (weights self))) by (simpl; congruence).
  simpl. eexists _, _, _. split; [reflexivity |].
  split; [unfold sum_axis0; simpl; congruence |].
  split.
  { intros j Hj. unfold sum_axis0. rewrite get_tabulate by lia.
    rewrite Rg. reflexivity. }
  split; [simpl; congruence |].
  split.
  { intros i j Hi Hj. rewrite get_tabulate by (simpl; lia).
    simpl. rewrite Rx. f_equal. apply fmap_seq_ext. intros k Hk.
    unfold transpose. rewrite get_tabulate by lia. reflexivity. }
  split; [simpl; congruence |].
  intros i j Hi Hj. rewrite get_tabulate by (simpl; lia).
  rewrite Cg. f_equal. apply fmap_seq_ext. intros k Hk.
  unfold transpose. rewrite get_tabulate by lia. reflexivity.
Qed.

(** ** The cached input across mode switches *)

Lemma NNLayer_eval_last_input (self : NNLayer F) :
  nn_last_input (NNLayer_eval self) = nn_last_input self.
Proof. destruct self; reflexivity. Qed.

Lemma NNLayer_forward_eval_mode (self : NNLayer F) x :
  nn_training self = false -> (NNLayer_forward self x).2 = self.
Proof.
  destruct self as [l | t]; simpl; intros E.
  - rewrite E. reflexivity.
  - unfold Tanh_forward. rewrite E. reflexivity.
Qed.

Lemma NNLayer_forward_training_mode (self : NNLayer F) x :
  nn_training self = true ->
  nn_last_input (NNLayer_forward self x).2 = Some x /\
  nn_params (NNLayer_forward self x).2 = nn_params self /\
  nn_training (NNLayer_forward self x).2 = true.
Proof.
  destruct self as [l | t]; simpl; intros E.
  - rewrite E. simpl. auto.
  - unfold Tanh_forward. rewrite E. simpl. auto.
Qed.

Lemma eval_mode_ops_invariant (ops : list (layer_op F)) (self : NNLayer F) :
  nn_training self = false ->
  Forall (fun op => is_OpTrain op = false) ops ->
  nn_last_input (foldl NNLayer_step self ops) = nn_last_input self /\
  nn_params (foldl NNLayer_step self ops) = nn_params self.
Proof.
  revert self. induction ops as [| op ops IH]; intros self Hm Hops; simpl.
  - auto.
  - apply Forall_cons in Hops as [Hop Hops].
    destruct op as [| | x]; simpl in *.
    + discriminate.
    + destruct (IH (NNLayer_eval self)) as [E1 E2]; [| exact Hops |].
      * destruct self; reflexivity.
      * rewrite E1, E2. destruct self; auto.
    + rewrite (NNLayer_forward_eval_mode self x Hm). apply IH; assumption.
Qed.

Lemma NNLayer_backward_depends (l l' : NNLayer F) grad_y :
  nn_last_input l = nn_last_input l' ->
  nn_params l = nn_params l' ->
  (NNLayer_backward l grad_y).1 = (NNLayer_backward l' grad_y).1.
Proof.
  destruct l as [l | t], l' as [l' | t']; simpl; intros E1 E2; try discriminate.
  - injection E2 as Ew Eb. unfold LinearLayer_backward.
    rewrite E1, Ew, Eb. destruct (last_input l'); reflexivity.
  - unfold Tanh_backward. rewrite E1. destruct (tanh_last_input t'); reflexivity.
Qed.

Lemma NNLayer_backward_with_input (l : NNLayer F) x grad_y :
  nn_last_input l = Some x ->
  (NNLayer_backward l grad_y).1 <> Raise (RuntimeError no_input_msg) /\
  (NNLayer_backward l grad_y).1 <> Raise TypeError.
Proof.
  destruct l as [l | t]; simpl; intros E.
  - unfold LinearLayer_backward. rewrite E. simpl.
    unfold matmul. repeat case_match; simpl; split; discriminate.
  - unfold Tanh_backward. rewrite E. simpl.
    unfold broadcast2. repeat case_match; simpl; split; discriminate.
Qed.

(** C10. [eval()] does not clear the cached input and a [forward] in eval
    mode does not overwrite it.  So after a training-mode [forward] on [x0],
    followed by [eval()] and then any number of [eval()] and [forward] calls,
    the layer still caches [x0] and has its parameters unchanged, and
    [backward] gives exactly the outcome it would have given right after
    that training-mode [forward]; in particular it does not fail for want of
    a cached input. *)
Theorem eval_mode_keeps_cached_input (self : NNLayer F) x0
    (ops : list (layer_op F)) grad_y :
  nn_training self = true ->
  Forall (fun op => is_OpTrain op = false) ops ->
  let l1 := (NNLayer_forward self x0).2 in
  let l2 := foldl NNLayer_step (NNLayer_eval l1) ops in
  (forall l : NNLayer F, nn_last_input (NNLayer_eval l) = nn_last_input l) /\
  (forall (l : NNLayer F) x,
      nn_training l = false -> nn_last_input (NNLayer_forward l x).2 = nn_last_input l) /\
  nn_last_input l2 = Some x0 /\
  nn_params l2 = nn_params self /\
  (NNLayer_backward l2 grad_y).1 = (NNLayer_backward l1 grad_y).1 /\
  (NNLayer_backward l2 grad_y).1 <> Raise (RuntimeError no_input_msg) /\
  (NNLayer_backward l2 grad_y).1 <> Raise TypeError.
Proof.
  intros Hm Hops l1 l2.
  destruct (NNLayer_forward_training_mode self x0 Hm) as (Hin & Hp & _).
  fold l1 in Hin, Hp.
  destruct (eval_mode_ops_invariant ops (NNLayer_eval l1)) as [E1 E2].
  { destruct l1; reflexivity. }
  { exact Hops. }
  fold l2 in E1, E2.
  assert (Hl2 : nn_last_input l2 = Some x0).
  { rewrite E1, NNLayer_eval_last_input. exact Hin. }
  assert (Hp2 : nn_params l2 = nn_params l1).
  { rewrite E2. destruct l1; reflexivity. }
  split; [exact NNLayer_eval_last_input |].
  split; [intros l x E; rewrite (NNLayer_forward_eval_mode l x E); reflexivity |].
  split; [exact Hl2 |].
  split; [congruence |].
  split; [apply NNLayer_backward_depends; congruence |].
  exact (NNLayer_backward_with_input l2 x0 grad_y Hl2).
Qed.

(** ** Shapes along the forward pass *)

#[local] Arguments LinearLayer_forward : simpl never.
#[local] Arguments LinearLayer_backward : simpl never.
#[local] Arguments Tanh_backward : simpl never.

Lemma bdim_one_r (m : nat) : bdim m 1 = Some m.
Proof.
  unfold bdim. destruct (Nat.eqb_spec m 1) as [-> |]; [reflexivity |].
  reflexivity.
Qed.

Lemma bdim_one_l (m : nat) : bdim 1 m = Some m.
Proof.
  unfold bdim. destruct (Nat.eqb_spec 1 m) as [<- |]; reflexivity.
Qed.

Lemma LinearLayer_forward_shape (self : LinearLayer F) x (a b B : nat) :
  linear_wf a b self ->
  shape x = (B, a) ->
  exists y, (LinearLayer_forward self x).1 = Ok y /\ shape y = (B, b).
Proof.
  intros [Sw Sb] Sx. unfold shape in *.
  injection Sw as Rw Cw. injection Sb as Rb Cb. injection Sx as Rx Cx.
  unfold LinearLayer_forward. cbn [fst snd].
  assert (Ew : weights (if training self then set_last_input (Some x) self else self)
               = weights self) by (destruct (training self); reflexivity).
  assert (Eb : bias (if training self then set_last_input (Some x) self else self)
               = bias self) by (destruct (training self); reflexivity).
  rewrite Ew, Eb.
  rewrite matmul_ok by congruence. simpl.
  unfold broadcast2. simpl.
  rewrite Rx, Rb, Cw, Cb, bdim_one_r, bdim_same.
  eexists. split; reflexivity.
Qed.

Lemma LinearLayer_forward_wf (self : LinearLayer F) x (a b : nat) :
  linear_wf a b self -> linear_wf a b (LinearLayer_forward self x).2.
Proof.
  unfold LinearLayer_forward; simpl. destruct (training self); auto.
Qed.

Lemma forward_loop_shape (sizes : list nat) (ls : list (NNLayer F)) :
  chain_wf sizes ls ->
  forall x (B L0 Lk : nat),
    head sizes = Some L0 -> last sizes = Some Lk -> shape x = (B, L0) ->
    exists y, (forward_loop ls x).1 = Ok y /\ shape y = (B, Lk).
Proof.
  induction 1 as [a | a b l Hl | a b c rest l t ls Hl Hch IH];
    intros x B L0 Lk Hh Hla Sx; simpl in Hh; injection Hh as <-.
  - simpl in *. injection Hla as <-. eauto.
  - simpl in Hla. injection Hla as <-.
    destruct (LinearLayer_forward_shape l x a b B Hl Sx) as (y & Ey & Sy).
    cbn. destruct (LinearLayer_forward l x) as [r l']. cbn in Ey. subst r.
    cbn. eauto.
  - destruct (LinearLayer_forward_shape l x a b B Hl Sx) as (y & Ey & Sy).
    change (last (a :: b :: c :: rest)) with (last (b :: c :: rest)) in Hla.
    cbn. destruct (LinearLayer_forward l x) as [r l']. cbn in Ey. subst r.
    cbn.
    destruct (IH (amap f_tanh y) B b Lk eq_refl Hla Sy) as (z & Ez & Sz).
    destruct (forward_loop ls (amap f_tanh y)) as [r ls']. cbn in *. eauto.
Qed.

Lemma forward_loop_wf (sizes : list nat) (ls : list (NNLayer F)) :
  chain_wf sizes ls -> forall x, chain_wf sizes (forward_loop ls x).2.
Proof.
  induction 1 as [a | a b l Hl | a b c rest l t ls Hl Hch IH]; intros x; cbn.
  - constructor.
  - pose proof (LinearLayer_forward_wf l x a b Hl) as Hl'.
    destruct (LinearLayer_forward l x) as [[y | e] l']; cbn in *;
      constructor; assumption.
  - pose proof (LinearLayer_forward_wf l x a b Hl) as Hl'.
    destruct (LinearLayer_forward l x) as [[y | e] l']; cbn in *.
    + specialize (IH (amap f_tanh y)).
      destruct (forward_loop ls (amap f_tanh y)) as [r ls']. cbn in *.
      constructor; assumption.
    + constructor; assumption.
Qed.

Lemma LinearLayer_init_wf (a b : nat) noise (l : LinearLayer F) :
  LinearLayer_init a b noise = Ok l -> linear_wf a b l.
Proof.
  unfold LinearLayer_init. destruct (a =? 0); [discriminate |].
  intros [= <-]. split; reflexivity.
Qed.

Lemma build_layers_cons noise (k a b : nat) (rest : list nat) :
  build_layers noise k (a :: b :: rest) =
    (l ← LinearLayer_init a b (noise k);
     ls ← build_layers noise (S k) (b :: rest);
     Ok (Linear l :: (match rest with [] => [] | _ => [TanhLayer Tanh_init] end) ++ ls)).
Proof. reflexivity. Qed.

Lemma build_layers_wf (sizes : list nat) :
  forall noise (k : nat) (ls : list (NNLayer F)),
    sizes <> [] -> build_layers noise k sizes = Ok ls -> chain_wf sizes ls.
Proof.
  induction sizes as [| a [| b rest] IH]; intros noise k ls Hne Hb.
  - congruence.
  - simpl in Hb. injection Hb as <-. constructor.
  - rewrite build_layers_cons in Hb.
    destruct (LinearLayer_init a b (noise k)) as [l | e] eqn:El; [| discriminate].
    apply LinearLayer_init_wf in El.
    destruct (build_layers noise (S k) (b :: rest)) as [ls' | e] eqn:Els; [| discriminate].
    cbn in Hb. injection Hb as <-.
    apply IH in Els; [| discriminate].
    destruct rest as [| c rest].
    + inversion Els; subst. simpl. constructor. assumption.
    + simpl. constructor; assumption.
Qed.

Lemma MLP_init_sizes_wf (sizes : list nat) noise (m : MLP F) :
  sizes <> [] -> MLP_init_sizes sizes noise = Ok m -> mlp_wf m.
Proof.
  unfold MLP_init_sizes. intros Hne Hm.
  destruct (build_layers noise 0 sizes) as [ls | e] eqn:Els; [| discriminate].
  simpl in Hm. injection Hm as <-. unfold mlp_wf. simpl.
  eapply build_layers_wf; eassumption.
Qed.

Lemma MLP_forward_wf (m : MLP F) x : mlp_wf m -> mlp_wf (MLP_forward x m).2.
Proof.
  unfold mlp_wf, MLP_forward, with_layers. intros Hm.
  pose proof (forward_loop_wf _ _ Hm x) as H.
  destruct (forward_loop (layers m) x) as [r ls]. exact H.
Qed.

(** C6. On a network whose layers follow its chain of widths
    [[L0; ...; Lk]] (as [__init__] builds them), [MLP.forward] applied to an
    input of shape [B, L0] returns a matrix of shape [B, Lk], for every
    [B >= 1]. *)
Theorem MLP_forward_shape (m : MLP F) x (B L0 Lk : nat) :
  mlp_wf m ->
  head (layer_size m) = Some L0 ->
  last (layer_size m) = Some Lk ->
  1 <= B ->
  shape x = (B, L0) ->
  exists y, (MLP_forward x m).1 = Ok y /\ shape y = (B, Lk).
Proof.
  intros Hm Hh Hl _ Sx. unfold MLP_forward, with_layers.
  destruct (forward_loop_shape _ _ Hm x B L0 Lk Hh Hl Sx) as (y & Ey & Sy).
  destruct (forward_loop (layers m) x) as [r ls]. simpl in *. eauto.
Qed.

(** ** The loss head *)

Lemma broadcast2_shape (f : F -> F -> F) a b r :
  broadcast2 f a b = Ok r ->
  bdim (nrows a) (nrows b) = Some (nrows r) /\ bdim (ncols a) (ncols b) = Some (ncols r).
Proof.
  unfold broadcast2.
  destruct (bdim (nrows a) (nrows b)) as [n |]; [| discriminate].
  destruct (bdim (ncols a) (ncols b)) as [c |]; [| discriminate].
  intros [= <-]. split; reflexivity.
Qed.

Lemma broadcast2_same_shape (f : F -> F -> F) a b :
  shape a = shape b ->
  broadcast2 f a b =
    Ok (tabulate (nrows a) (ncols a) (fun i j => f (get a i j) (get b i j))).
Proof.
  unfold shape. intros [= Er Ec]. unfold broadcast2.
  rewrite <- Er, <- Ec, !bdim_same. f_equal.
  apply tabulate_ext. intros i j Hi Hj. rewrite !bidx_lt by assumption. reflexivity.
Qed.

Lemma inplace2_shape (f : F -> F -> F) a b r :
  inplace2 f a b = Ok r -> shape r = shape a.
Proof.
  unfold inplace2. destruct (broadcast2 f a b) as [r' |]; [| discriminate]. cbn.
  destruct (Nat.eqb_spec (nrows r') (nrows a)); [| discriminate].
  destruct (Nat.eqb_spec (ncols r') (ncols a)); [| discriminate].
  cbn. intros [= <-]. unfold shape. congruence.
Qed.

Lemma inplace2_same_shape (f : F -> F -> F) a b :
  shape a = shape b ->
  inplace2 f a b =
    Ok (tabulate (nrows a) (ncols a) (fun i j => f (get a i j) (get b i j))).
Proof.
  intros E. unfold inplace2. rewrite (broadcast2_same_shape f a b E). cbn.
  rewrite !Nat.eqb_refl. reflexivity.
Qed.

Lemma softmax_shape scores probs :
  softmax scores = Ok probs -> shape probs = shape scores.
Proof.
  unfold softmax, max_axis1.
  destruct (ncols scores =? 0); [discriminate |]. cbn.
  unfold broadcast2 at 1. cbn. rewrite bdim_same, bdim_one_r. cbn.
  intros E. apply inplace2_shape in E. exact E.
Qed.

Lemma SoftmaxCrossEntropy_call_shape g scores labels (loss : F) grad :
  SoftmaxCrossEntropy_call g scores labels = Ok (loss, grad) ->
  shape grad = shape scores.
Proof.
  unfold SoftmaxCrossEntropy_call.
  destruct (softmax scores) as [probs |] eqn:Ep; [| discriminate].
  apply softmax_shape in Ep. cbn.
  destruct (read_global g) as [bs |]; [| discriminate]. cbn.
  destruct (fancy_positions _ _ _ _) as [ps |]; [| discriminate]. cbn.
  rewrite broadcast2_same_shape by reflexivity. cbn.
  intros [= _ <-]. exact Ep.
Qed.

Lemma norm_indices_length (n : nat) (l : list Z) (ks : list nat) :
  norm_indices n l = Some ks -> length ks = length l.
Proof.
  revert ks. induction l as [| i l IH]; intros ks; cbn.
  - intros [= <-]. reflexivity.
  - destruct (norm_index n i); [| discriminate].
    destruct (norm_indices n l) as [ks' |]; [| discriminate].
    intros [= <-]. cbn. f_equal. apply IH. reflexivity.
Qed.

Lemma norm_indices_bound (n : nat) (l : list Z) (ks : list nat) :
  norm_indices n l = Some ks -> Forall (fun i => (i < Z.of_nat n)%Z) l.
Proof.
  revert ks. induction l as [| i l IH]; intros ks; cbn.
  - constructor.
  - unfold norm_index.
    destruct (Z.leb_spec 0 i), (Z.ltb_spec i (Z.of_nat n)); cbn;
      try (destruct (Z.leb_spec (- Z.of_nat n) i), (Z.ltb_spec i 0); cbn);
      try discriminate;
      (destruct (norm_indices n l) as [ks' |]; [| discriminate]);
      intros _; (constructor; [lia | eapply IH; reflexivity]).
Qed.

Lemma length_arange (n : Z) : length (arange n) = Z.to_nat n.
Proof. unfold arange. rewrite length_fmap, length_seq. reflexivity. Qed.

(** Whenever the number of rows differs from a global [batch_size] of at
    least 2, the indexing [scores[np.arange(batch_size), labels]] fails. *)
Lemma fancy_positions_row_mismatch (r c : nat) (bs : Z) (labels : list Z) :
  length labels = r ->
  (2 <= bs)%Z ->
  Z.of_nat r <> bs ->
  fancy_positions r c (arange bs) labels = Raise IndexError.
Proof.
  intros Hlen Hbs Hne. unfold fancy_positions.
  destruct (norm_indices r (arange bs)) as [i0 |] eqn:E0; [| reflexivity].
  destruct (norm_indices c labels) as [i1 |] eqn:E1; [| reflexivity].
  pose proof (norm_indices_length _ _ _ E0) as L0. rewrite length_arange in L0.
  pose proof (norm_indices_length _ _ _ E1) as L1.
  pose proof (norm_indices_bound _ _ _ E0) as B0.
  assert (Hlt : (bs < Z.of_nat r)%Z).
  { destruct (Z.lt_ge_cases (Z.of_nat r) bs) as [Hlt | Hge]; [| lia].
    exfalso. rewrite Forall_forall in B0.
    specialize (B0 (Z.of_nat r)).
    assert (Hin : Z.of_nat r ∈ arange bs).
    { unfold arange. apply list_elem_of_fmap. exists r. split; [reflexivity |].
      apply elem_of_seq. lia. }
    specialize (B0 Hin). lia. }
  unfold broadcast_index.
  destruct (Nat.eqb_spec (length i0) (length i1)) as [E |]; [lia |].
  destruct i0 as [| x0 [| x1 i0]]; cbn in L0; try lia.
  destruct i1 as [| y0 [| y1 i1]]; cbn in L1; try lia; reflexivity.
Qed.

Lemma loss_head_row_mismatch (bs : Z) scores (labels : list Z) :
  is_Ok (softmax scores) ->
  length labels = nrows scores ->
  (2 <= bs)%Z ->
  Z.of_nat (nrows scores) <> bs ->
  SoftmaxCrossEntropy_call (Some bs) scores labels = Raise IndexError.
Proof.
  intros Hs Hlen Hbs Hne. unfold SoftmaxCrossEntropy_call.
  destruct (softmax scores) as [probs |] eqn:Ep; [| contradiction].
  apply softmax_shape in Ep. unfold shape in Ep. injection Ep as Er Ec. cbn.
  rewrite fancy_positions_row_mismatch; [reflexivity | congruence | exact Hbs | congruence].
Qed.

Lemma norm_indices_seq (n k s : nat) :
  s + k <= n -> norm_indices n (Z.of_nat <$> seq s k) = Some (seq s k).
Proof.
  revert s. induction k as [| k IH]; intros s Hs; cbn; [reflexivity |].
  rewrite IH by lia. unfold norm_index.
  destruct (Z.leb_spec 0 (Z.of_nat s)); [| lia].
  destruct (Z.ltb_spec (Z.of_nat s) (Z.of_nat n)); [| lia].
  cbn. rewrite Nat2Z.id. reflexivity.
Qed.

Lemma norm_indices_in_range (n : nat) (l : list Z) :
  Forall (fun i => (0 <= i < Z.of_nat n)%Z) l ->
  norm_indices n l = Some (Z.to_nat <$> l).
Proof.
  induction 1 as [| i l Hi Hl IH]; cbn; [reflexivity |].
  rewrite IH. unfold norm_index.
  destruct (Z.leb_spec 0 i); [| lia].
  destruct (Z.ltb_spec i (Z.of_nat n)); [| lia]. reflexivity.
Qed.

Lemma existsb_zip_seq (labs : list nat) (s i j : nat) :
  existsb (fun p : nat * nat => (p.1 =? i) && (p.2 =? j)) (zip (seq s (length labs)) labs)
  = bool_decide (s <= i /\ labs !! (i - s) = Some j).
Proof.
  revert s. induction labs as [| c labs IH]; intros s; cbn.
  - symmetry. apply bool_decide_eq_false. intros [_ H]. rewrite lookup_nil in H.
    discriminate.
  - rewrite IH.
    destruct (Nat.eqb_spec s i) as [-> | Hne]; cbn.
    + rewrite Nat.sub_diag. cbn.
      destruct (Nat.eqb_spec c j) as [-> | Hc]; cbn.
      * symmetry. apply bool_decide_eq_true. auto.
      * transitivity false.
        -- apply bool_decide_eq_false. lia.
        -- symmetry. apply bool_decide_eq_false. intros [_ [= H]]. congruence.
    + apply bool_decide_ext. split.
      * intros [Hs Hl]. split; [lia |].
        replace (i - s) with (S (i - S s)) by lia. exact Hl.
      * intros [Hs Hl]. split; [lia |].
        replace (i - s) with (S (i - S s)) in Hl by lia. exact Hl.
Qed.

(** What the loss head returns when the global [batch_size] is the number
    of rows of [scores]: the mean of [-log] of the probability of each row's
    label, and [(probs - one_hot(labels)) / batch_size]. *)
Lemma loss_head_matching_rows scores (labels : list Z) (B C : nat) :
  shape scores = (B, C) ->
  0 < C ->
  length labels = B ->
  Forall (fun l => (0 <= l < Z.of_nat C)%Z) labels ->
  exists probs,
    softmax scores = Ok probs /\ shape probs = (B, C) /\
    SoftmaxCrossEntropy_call (Some (Z.of_nat B)) scores labels =
      Ok (mean (f_neg <$> (f_log <$>
                  ((fun p : nat * nat => get probs p.1 p.2)
                     <$> zip (seq 0 B) (Z.to_nat <$> labels)))),
          tabulate B C (fun i j =>
            f_div (f_sub (get probs i j) (one_hot_entry (Z.to_nat <$> labels) i j))
                  (f_of_Z (Z.of_nat B)))).
Proof.
  intros Ss HC Hlen Hlab. unfold shape in Ss. injection Ss as Sr Scol.
  assert (Hsm : exists probs, softmax scores = Ok probs /\ shape probs = (B, C)).
  { unfold softmax, max_axis1. destruct (Nat.eqb_spec (ncols scores) 0); [lia |]. cbn.
    unfold broadcast2 at 1. cbn. rewrite bdim_same, bdim_one_r. cbn.
    unfold inplace2, broadcast2. cbn. rewrite bdim_same, bdim_one_r. cbn.
    rewrite !Nat.eqb_refl. cbn. eexists. split; [reflexivity |].
    unfold shape; cbn; congruence. }
  destruct Hsm as (probs & Ep & Sp). exists probs. split; [exact Ep |].
  split; [exact Sp |].
  unfold shape in Sp. injection Sp as Pr Pc.
  unfold SoftmaxCrossEntropy_call. rewrite Ep. cbn.
  unfold fancy_positions, arange. rewrite Nat2Z.id, Pr, Pc.
  rewrite norm_indices_seq by lia. rewrite (norm_indices_in_range C labels Hlab).
  unfold broadcast_index. rewrite length_seq, length_fmap, Hlen, Nat.eqb_refl.
  cbn [mbind res_bind].
  rewrite broadcast2_same_shape by reflexivity. cbn [mbind res_bind].
  unfold read_positions. do 2 f_equal. unfold amap. cbn. rewrite Pr, Pc.
  apply tabulate_ext. intros i j Hi Hj.
  rewrite get_tabulate by assumption. f_equal. f_equal.
  unfold write_positions, zeros_like, zeros. rewrite Pr, Pc.
  rewrite get_tabulate by assumption. rewrite get_tabulate by assumption.
  replace B with (length (Z.to_nat <$> labels)) at 1 by (rewrite length_fmap; exact Hlen).
  rewrite existsb_zip_seq. unfold one_hot_entry. rewrite Nat.sub_0_r.
  destruct (decide (_ !! i = Some j)) as [E | E].
  - rewrite bool_decide_eq_true_2; [reflexivity | split; [lia | exact E]].
  - rewrite bool_decide_eq_false_2; [reflexivity | intros [_ H]; contradiction].
Qed.

(** C1 (at the failing input). With the module-level [batch_size] equal to
    10, as the script binds it, a batch of 3 rows (the short last batch of a
    dataset of 13, 23, ... samples) makes the loss head raise [IndexError]:
    [np.arange(batch_size)] has 10 entries, [labels] has 3.  No gradient is
    returned, let alone one divided by the actual number of rows. *)
Theorem loss_head_short_batch_raises (f : nat -> nat -> F) :
  SoftmaxCrossEntropy_call (Some 10%Z) (tabulate 3 4 f) [0; 1; 2]%Z = Raise IndexError.
Proof. reflexivity. Qed.

(** The same defect where it goes unnoticed: with the global equal to 1 and
    a batch of 2 rows the call returns, and the divisor of the gradient is
    the global 1, not the number of rows. *)
Lemma loss_head_divides_by_global (f : nat -> nat -> F) :
  exists loss d,
    SoftmaxCrossEntropy_call (Some 1%Z) (tabulate 2 2 f) [0; 1]%Z =
      Ok (loss, amap (fun v => f_div v (f_of_Z 1)) d).
Proof. eexists _, _. reflexivity. Qed.

Lemma loss_head_unbound_global scores labels :
  is_Ok (softmax scores) ->
  SoftmaxCrossEntropy_call None scores labels = Raise NameError.
Proof.
  unfold SoftmaxCrossEntropy_call. destruct (softmax scores); [reflexivity | contradiction].
Qed.

(** ** The trainer on a dataset that the batch size does not divide *)

(** With 20 samples and [batch_size] 10 every batch is whole: two epochs
    make four calls of [mlp.backward], all of which return, and [train]
    returns one averaged loss. *)
Lemma train_whole_batches_complete (noise : nat -> nat -> nat -> F) (lr : F)
    (f : nat -> nat -> F) :
  (m ← MLP_init noise;
   Ok ((fun r : res (list F) * MLP F =>
          match r.1 with Ok l => Some (length l) | Raise _ => None end)
         <$> train (Some 10%Z) (fun _ => seq 0 20) m 2 lr
               (tabulate 20 10 f)
               (tabulate 20 4 (fun i j => if j =? i mod 4 then 1%Z else 0%Z))
               10))
  = Ok (Some (Some 1)).
Proof. reflexivity. Qed.

(** C3 (at the failing input). The script's configuration ([batch_size]
    10, also the value of the global) on a dataset of 12 samples: the first
    batch of 10 is processed, the short batch of the remaining 2 samples
    reaches the loss head and [train] ends with [IndexError] instead of
    completing the epoch. *)
Theorem train_short_last_batch_raises (noise : nat -> nat -> nat -> F) (lr : F)
    (f : nat -> nat -> F) :
  (m ← MLP_init noise;
   Ok (fst <$> train (Some 10%Z) (fun _ => seq 0 12) m 1 lr
                 (tabulate 12 10 f)
                 (tabulate 12 4 (fun i j => if j =? i mod 4 then 1%Z else 0%Z))
                 10))
  = Ok (Some (Raise IndexError)).
Proof. reflexivity. Qed.

(** ** The train step: gradients first, updates afterwards *)

Lemma NNLayer_backward_result (l : NNLayer F) grad (t : backward_result F) :
  (NNLayer_backward l grad).1 = Ok t ->
  (exists gx w gw b gb, t = (gx, Some w, Some gw, Some b, Some gb)) \/
  (exists gx, t = (gx, None, None, None, None)).
Proof.
  destruct l as [l | tl]; cbn.
  - unfold LinearLayer_backward. destruct (last_input l); [| discriminate]. cbn.
    destruct (matmul _ grad); [| discriminate]. cbn.
    destruct (matmul grad _); [| discriminate]. cbn.
    intros [= <-]. left. eauto 10.
  - unfold Tanh_backward. destruct (tanh_last_input tl); [| discriminate]. cbn.
    destruct (broadcast2 _ _ _); [| discriminate]. cbn.
    intros [= <-]. right. eauto.
Qed.

Lemma zip_lists_snoc (pl : param_lists F) (i : nat) gw (b : option nat) gb :
  lists_aligned pl ->
  zip_lists (mkLists (weights_list pl ++ [i]) (grad_weights_list pl ++ [gw])
                     (bias_list pl ++ [b]) (grad_bias_list pl ++ [gb]))
  = zip_lists pl ++ [(i, gw, b, gb)].
Proof.
  intros (H1 & H2 & H3). unfold zip_lists. cbn.
  assert (L1 : length (zip (weights_list pl) (grad_weights_list pl))
               = length (weights_list pl))
    by (apply length_zip_with_l_eq; lia).
  assert (L2 : length (zip (zip (weights_list pl) (grad_weights_list pl)) (bias_list pl))
               = length (weights_list pl))
    by (rewrite length_zip_with_l_eq; lia).
  rewrite (zip_with_app pair (weights_list pl)) by lia.
  rewrite (zip_with_app pair (zip (weights_list pl) (grad_weights_list pl))) by lia.
  rewrite (zip_with_app pair (zip (zip (weights_list pl) (grad_weights_list pl))
                                  (bias_list pl))) by lia.
  reflexivity.
Qed.

Lemma collect_entry (l : NNLayer F) grad (t : backward_result F) (i : nat)
    (pl : param_lists F) :
  (NNLayer_backward l grad).1 = Ok t ->
  lists_aligned pl ->
  lists_aligned (collect i t pl) /\
  zip_lists (collect i t pl) = zip_lists pl ++ entry_of i (param_grads t).
Proof.
  intros Ht Hpl.
  destruct (NNLayer_backward_result l grad t Ht)
    as [(gx & w & gw & b & gb & ->) | (gx & ->)]; cbn.
  - split; [| apply zip_lists_snoc; exact Hpl].
    destruct Hpl as (H1 & H2 & H3). unfold lists_aligned. cbn.
    rewrite !length_app. cbn. lia.
  - split; [exact Hpl |]. rewrite app_nil_r. reflexivity.
Qed.

Lemma backprop_snoc (ls : list (NNLayer F)) (l : NNLayer F) grad :
  backprop (ls ++ [l]) grad =
    (t ← (NNLayer_backward l grad).1;
     r ← backprop ls t.1.1.1.1;
     Ok (r.1, r.2 ++ [param_grads t])).
Proof.
  induction ls as [| l0 ls IH]; cbn [app backprop].
  - cbn. destruct (NNLayer_backward l grad).1; reflexivity.
  - rewrite IH. destruct (NNLayer_backward l grad).1 as [t |]; cbn; [| reflexivity].
    destruct (backprop ls t.1.1.1.1) as [r |]; cbn; [| reflexivity].
    destruct (NNLayer_backward l0 r.1).1; reflexivity.
Qed.

Lemma backprop_length (ls : list (NNLayer F)) grad g0 gs :
  backprop ls grad = Ok (g0, gs) -> length gs = length ls.
Proof.
  revert g0 gs. induction ls as [| l ls IH]; intros g0 gs; cbn.
  - intros [= _ <-]. reflexivity.
  - destruct (backprop ls grad) as [[g1 gs1] |]; [| discriminate]. cbn.
    destruct (NNLayer_backward l g1).1; [| discriminate]. cbn.
    intros [= _ <-]. cbn. f_equal. eapply IH. reflexivity.
Qed.

Lemma entries_snoc (gs : list (option (ndarray F * ndarray F))) g (k : nat) :
  entries k (gs ++ [g]) = entry_of (k + length gs) g ++ entries k gs.
Proof.
  revert k. induction gs as [| g0 gs IH]; intros k; cbn [app entries length].
  - rewrite Nat.add_0_r, app_nil_r. reflexivity.
  - rewrite IH, <- app_assoc. do 2 f_equal. lia.
Qed.

(** The sweep of [MLP.backward] over the positions of [suf], last first,
    is the chain rule over [suf]; the four lists receive the parameter
    gradients in that order. *)
Lemma frozen_sweep_backprop (suf : list (NNLayer F)) :
  forall (pre post : list (NNLayer F)) grad (pl : param_lists F),
    lists_aligned pl ->
    match frozen_sweep (pre ++ suf ++ post) (rev (seq (length pre) (length suf))) grad pl,
          backprop suf grad with
    | Ok (g, pl'), Ok (g', gs) =>
        g = g' /\ lists_aligned pl' /\
        zip_lists pl' = zip_lists pl ++ entries (length pre) gs
    | Raise e, Raise e' => e = e'
    | _, _ => False
    end.
Proof.
  induction suf as [| l suf IH] using rev_ind; intros pre post grad pl Hpl.
  - cbn. rewrite app_nil_r. auto.
  - rewrite length_app. cbn [length]. rewrite Nat.add_1_r, seq_S, rev_unit.
    cbn [frozen_sweep].
    rewrite <- (app_assoc suf [l] post). cbn [app].
    rewrite app_assoc, (list_lookup_middle (pre ++ suf) post l)
      by (rewrite length_app; reflexivity).
    rewrite backprop_snoc.
    destruct (NNLayer_backward l grad).1 as [t |] eqn:Et; cbn; [| reflexivity].
    destruct (collect_entry l grad t (length pre + length suf) pl Et Hpl) as [Hal Hz].
    rewrite <- app_assoc.
    specialize (IH pre (l :: post) t.1.1.1.1 _ Hal).
    destruct (frozen_sweep _ _ _ _) as [[g pl'] | e];
      destruct (backprop suf t.1.1.1.1) as [[g' gs] | e'] eqn:Eb; cbn; try exact IH.
    destruct IH as (-> & Hal' & Hz'). split; [reflexivity |]. split; [exact Hal' |].
    rewrite Hz', Hz, entries_snoc, <- app_assoc.
    rewrite (backprop_length _ _ _ _ Eb). reflexivity.
Qed.

Lemma get_amap (f : F -> F) a (i j : nat) :
  i < nrows a -> j < ncols a -> get (amap f a) i j = f (get a i j).
Proof. intros Hi Hj. unfold amap. rewrite get_tabulate by assumption. reflexivity. Qed.

Lemma descend_inplace (lr : F) (p g : ndarray F) :
  shape g = shape p ->
  inplace2 f_sub p (amap (fun v => f_mul v lr) g) = Ok (descend lr p g).
Proof.
  intros E. unfold shape in E. injection E as Er Ec.
  rewrite inplace2_same_shape by (unfold shape; cbn; congruence).
  f_equal. apply tabulate_ext. intros i j Hi Hj.
  rewrite get_amap by lia. reflexivity.
Qed.

Lemma update_loop_app zs1 zs2 (lr : F) (st : list (NNLayer F)) :
  update_loop (zs1 ++ zs2) lr st =
    match update_loop zs1 lr st with
    | (Ok _, st1) => update_loop zs2 lr st1
    | (Raise e, st1) => (Raise e, st1)
    end.
Proof.
  revert st. induction zs1 as [| [[[w gw] b] gb] zs1 IH]; intros st; cbn [app update_loop].
  - reflexivity.
  - unfold st_bind.
    destruct (sgd_weights w gw lr st) as [[[] | e] st1]; [| reflexivity].
    destruct (sgd_bias b gb lr st1) as [[[] | e] st2]; [| reflexivity].
    apply IH.
Qed.

Lemma update_entry (lr : F) (pre post : list (NNLayer F)) (l : NNLayer F) g :
  grads_fit l g ->
  update_loop (entry_of (length pre) g) lr (pre ++ l :: post) =
    (Ok tt, pre ++ sgd_layer lr l g :: post).
Proof.
  destruct l as [ll | t], g as [[gw gb] |]; cbn; try contradiction; try reflexivity.
  intros [Hw Hb]. unfold st_bind, sgd_weights, sgd_bias.
  rewrite (list_lookup_middle pre post (Linear ll)) by reflexivity.
  rewrite (descend_inplace lr (weights ll) gw Hw).
  rewrite (insert_app_r_alt pre) by lia. rewrite Nat.sub_diag. cbn [insert list_insert].
  rewrite (list_lookup_middle pre post _ (length pre)) by reflexivity.
  cbn [bias set_weights].
  rewrite (descend_inplace lr (bias ll) gb Hb).
  rewrite (insert_app_r_alt pre) by lia. rewrite Nat.sub_diag. reflexivity.
Qed.

(** The update loop over what the sweep recorded writes every layer once,
    with the gradient recorded for it. *)
Lemma update_loop_entries (lr : F) (suf : list (NNLayer F)) gs :
  Forall2 grads_fit suf gs ->
  forall pre post : list (NNLayer F),
    update_loop (entries (length pre) gs) lr (pre ++ suf ++ post) =
      (Ok tt, pre ++ zip_with (sgd_layer lr) suf gs ++ post).
Proof.
  induction 1 as [| l g suf gs Hfit Hrest IH]; intros pre post.
  - reflexivity.
  - cbn [entries zip_with app]. rewrite update_loop_app.
    specialize (IH (pre ++ [l]) post).
    rewrite length_app, Nat.add_1_r, <- !app_assoc in IH. cbn [app] in IH.
    rewrite IH.
    apply (update_entry lr pre _ l g Hfit).
Qed.

Lemma LinearLayer_forward_training (self : LinearLayer F) x y (l' : LinearLayer F) (a b : nat) :
  training self = true ->
  linear_wf a b self ->
  LinearLayer_forward self x = (Ok y, l') ->
  l' = set_last_input (Some x) self /\ ncols x = a /\ shape y = (nrows x, b).
Proof.
  intros Ht [Sw Sb]. unfold shape in *. injection Sw as Rw Cw. injection Sb as Rb Cb.
  unfold LinearLayer_forward. rewrite Ht. cbn [weights bias set_last_input].
  intros [= Hy <-]. split; [reflexivity |].
  unfold matmul in Hy. destruct (Nat.eqb_spec (ncols x) (nrows (weights self))) as [E |];
    [| discriminate].
  cbn in Hy. split; [congruence |].
  apply broadcast2_shape in Hy as [H1 H2]. cbn in H1, H2.
  rewrite Rb, bdim_one_r in H1. rewrite Cw, Cb, bdim_same in H2. congruence.
Qed.

Lemma forward_loop_cached (sizes : list nat) (ls : list (NNLayer F)) :
  chain_wf sizes ls ->
  Forall (fun l => nn_training l = true) ls ->
  forall x y,
    (forward_loop ls x).1 = Ok y ->
    exists cout,
      chain_cached (nrows x) (ncols x) (forward_loop ls x).2 cout /\
      shape y = (nrows x, cout).
Proof.
  induction 1 as [a | a b l Hl | a b c rest l t ls Hl Hch IH]; intros Htr x y Hy.
  - cbn in *. injection Hy as <-. exists (ncols x). split; [constructor | reflexivity].
  - apply Forall_cons in Htr as [Htl _]. cbn in Htl, Hy |- *.
    destruct (LinearLayer_forward l x) as [[y1 | e] l'] eqn:Ef; cbn in Hy; [| discriminate].
    injection Hy as <-.
    destruct (LinearLayer_forward_training l x y1 l' a b Htl Hl Ef) as (-> & Ec & Sy).
    subst a. exists b. split; [| exact Sy].
    cbn. eapply chain_cached_cons; [| constructor].
    cbn. exists x. split; [reflexivity |]. split; [reflexivity | exact Hl].
  - apply Forall_cons in Htr as [Htl Htr]. apply Forall_cons in Htr as [Htt Htr].
    cbn in Htl, Htt, Hy |- *.
    destruct (LinearLayer_forward l x) as [[y1 | e] l'] eqn:Ef; cbn in Hy |- *;
      [| discriminate].
    destruct (LinearLayer_forward_training l x y1 l' a b Htl Hl Ef) as (-> & Ec & Sy).
    subst a. unfold Tanh_forward in Hy |- *. rewrite Htt in Hy |- *. cbn in Hy |- *.
    specialize (IH Htr (amap f_tanh y1)).
    destruct (forward_loop ls (amap f_tanh y1)) as [[y2 | e] ls'] eqn:El; cbn in Hy |- *;
      [| discriminate].
    injection Hy as <-.
    destruct (IH y2 eq_refl) as (cout & Hc & Sy2).
    assert (Rn : nrows y1 = nrows x) by (unfold shape in Sy; congruence).
    assert (Cn : ncols y1 = b) by (unfold shape in Sy; congruence).
    cbn in Hc, Sy2. rewrite Rn, Cn in Hc. rewrite Rn in Sy2.
    exists cout. split; [| exact Sy2].
    eapply chain_cached_cons; [| eapply chain_cached_cons; [| exact Hc]].
    + cbn. exists x. split; [reflexivity |]. split; [reflexivity | exact Hl].
    + cbn. exists y1. split; [reflexivity |]. split; [exact Sy | reflexivity].
Qed.

Lemma LinearLayer_backward_ok (self : LinearLayer F) x grad_y (B a b : nat) :
  last_input self = Some x ->
  shape x = (B, a) ->
  shape (weights self) = (a, b) ->
  shape grad_y = (B, b) ->
  LinearLayer_backward self grad_y =
    (Ok (tabulate B a (fun i j =>
           f_sum ((fun k => f_mul (get grad_y i k) (get (transpose (weights self)) k j))
                    <$> seq 0 b)),
         Some (weights self),
         Some (tabulate a b (fun i j =>
           f_sum ((fun k => f_mul (get (transpose x) i k) (get grad_y k j)) <$> seq 0 B))),
         Some (bias self),
         Some (sum_axis0 grad_y)),
     self).
Proof.
  intros Hx Sx Sw Sg. unfold shape in *.
  injection Sx as Rx Cx. injection Sw as Rw Cw. injection Sg as Rg Cg.
  unfold LinearLayer_backward. rewrite Hx.
  rewrite (matmul_ok (transpose x) grad_y) by (cbn; congruence).
  rewrite (matmul_ok grad_y (transpose (weights self))) by (cbn; congruence).
  change (nrows (transpose x)) with (ncols x).
  change (ncols (transpose x)) with (nrows x).
  change (ncols (transpose (weights self))) with (nrows (weights self)).
  rewrite Rx, Cx, Rg, Cg, Rw. reflexivity.
Qed.

Lemma NNLayer_backward_Linear (ll : LinearLayer F) grad :
  (NNLayer_backward (Linear ll) grad).1 = (LinearLayer_backward ll grad).1.
Proof. cbn. destruct (LinearLayer_backward ll grad); reflexivity. Qed.

Lemma NNLayer_backward_Tanh (t : Tanh F) grad :
  (NNLayer_backward (TanhLayer t) grad).1 = (Tanh_backward t grad).1.
Proof. cbn. destruct (Tanh_backward t grad); reflexivity. Qed.

Lemma backprop_cached (B cin cout : nat) (ls : list (NNLayer F)) :
  chain_cached B cin ls cout ->
  forall grad,
    shape grad = (B, cout) ->
    exists g0 gs,
      backprop ls grad = Ok (g0, gs) /\ shape g0 = (B, cin) /\ Forall2 grads_fit ls gs.
Proof.
  induction 1 as [c | cin mid cout l ls Hl Hch IH]; intros grad Sg.
  - exists grad, []. cbn. split; [reflexivity |]. split; [exact Sg | constructor].
  - destruct (IH grad Sg) as (g1 & gs1 & Eb & Sg1 & Hfit).
    cbn [backprop]. rewrite Eb. cbn.
    destruct l as [ll | t]; cbn in Hl.
    + destruct Hl as (x & Hx & Sx & Sw & Sb).
      rewrite NNLayer_backward_Linear.
      rewrite (LinearLayer_backward_ok ll x g1 B cin mid Hx Sx Sw Sg1). cbn.
      eexists _, _. split; [reflexivity |]. split; [reflexivity |].
      constructor; [| exact Hfit]. cbn. unfold shape in *. split.
      * cbn. congruence.
      * cbn. injection Sg1 as _ ->. congruence.
    + destruct Hl as (x & Hx & Sx & ->).
      rewrite NNLayer_backward_Tanh.
      unfold Tanh_backward. rewrite Hx. cbn.
      rewrite broadcast2_same_shape by (unfold shape in *; cbn; congruence). cbn.
      eexists _, _. split; [reflexivity |]. split.
      * unfold shape in *. cbn. congruence.
      * constructor; [exact I | exact Hfit].
Qed.

Lemma MLP_backward_two_phase (g_batch_size : option Z) (m : MLP F)
    (input : ndarray F) (label : list Z) (lr : F) :
  MLP_backward g_batch_size input label lr m =
  train_step_two_phase g_batch_size input label lr m.
Proof.
  unfold MLP_backward, train_step_two_phase, st_bind, st_lift.
  destruct (MLP_forward input m) as [[pred | e] m1]; [| reflexivity].
  destruct (SoftmaxCrossEntropy_call g_batch_size pred label) as [lg | e]; [| reflexivity].
  unfold with_layers, st_bind. rewrite sweep_frozen.
  pose proof (frozen_sweep_backprop (layers m1) [] [] lg.2 no_lists) as Hsw.
  cbn [app length] in Hsw. rewrite app_nil_r in Hsw.
  destruct (frozen_sweep (layers m1) (rev (seq 0 (length (layers m1)))) lg.2 no_lists)
    as [[g' pl'] | e]; destruct (backprop (layers m1) lg.2) as [[g0 gs] | e'].
  - destruct Hsw as (_ & _ & Hz); [repeat split |].
    cbn in Hz |- *. rewrite Hz. reflexivity.
  - exfalso. apply Hsw. repeat split.
  - exfalso. apply Hsw. repeat split.
  - cbn. rewrite Hsw by (repeat split). reflexivity.
Qed.

Lemma MLP_backward_pointwise (g_batch_size : option Z) (m : MLP F)
    (input : ndarray F) (label : list Z) (lr : F) (pred : ndarray F) (loss : F)
    (grad : ndarray F) :
  mlp_wf m ->
  Forall (fun l => nn_training l = true) (layers m) ->
  (MLP_forward input m).1 = Ok pred ->
  SoftmaxCrossEntropy_call g_batch_size pred label = Ok (loss, grad) ->
  exists g0 gs,
    backprop (layers (MLP_forward input m).2) grad = Ok (g0, gs) /\
    Forall2 grads_fit (layers (MLP_forward input m).2) gs /\
    MLP_backward g_batch_size input label lr m =
      (Ok loss,
       mkMLP (layer_size m)
             (zip_with (sgd_layer lr) (layers (MLP_forward input m).2) gs)).
Proof.
  intros Hwf Htr Hf Hl.
  unfold mlp_wf in Hwf.
  destruct (forward_loop_cached _ _ Hwf Htr input pred) as (cout & Hc & Sp).
  { unfold MLP_forward, with_layers in Hf.
    destruct (forward_loop (layers m) input); exact Hf. }
  pose proof (SoftmaxCrossEntropy_call_shape _ _ _ _ _ Hl) as Sg.
  rewrite Sp in Sg.
  rewrite MLP_backward_two_phase.
  unfold train_step_two_phase, st_bind, st_lift.
  unfold MLP_forward, with_layers in Hf |- *.
  destruct (forward_loop (layers m) input) as [r ls1]. cbn in Hf, Hc |- *. subst r.
  rewrite Hl. cbn.
  destruct (backprop_cached _ _ _ _ Hc grad Sg) as (g0 & gs & Eb & _ & Hfit).
  exists g0, gs. split; [exact Eb |]. split; [exact Hfit |].
  rewrite Eb. unfold st_bind.
  pose proof (update_loop_entries lr ls1 gs Hfit [] []) as Hup.
  cbn [app length] in Hup. rewrite !app_nil_r in Hup. rewrite Hup. reflexivity.
Qed.

(** C4. For every network state, input batch, label batch and learning
    rate, [MLP.backward] is the two-phase step: all gradients are computed by
    the chain rule over the layers as the forward pass left them, and the
    updates run after that sweep has ended.  The forward pass leaves every
    weight and bias as it was at entry, so the gradients are functions of the
    parameter values held at entry.  On a network in training mode whose
    layers follow its chain of widths, a step whose forward pass and loss
    succeed ends normally, and the state after it is the list of layers left
    by the forward pass with every linear layer's [weights] and [bias]
    decreased, entry by entry, by its own gradient times [lr]. *)
Theorem MLP_backward_updates_after_sweep (g_batch_size : option Z) (m : MLP F)
    (input : ndarray F) (label : list Z) (lr : F) :
  let m1 := (MLP_forward input m).2 in
  MLP_backward g_batch_size input label lr m =
    train_step_two_phase g_batch_size input label lr m /\
  nn_params <$> layers m1 = nn_params <$> layers m /\
  (mlp_wf m ->
   Forall (fun l => nn_training l = true) (layers m) ->
   forall (pred : ndarray F) (loss : F) (grad : ndarray F),
     (MLP_forward input m).1 = Ok pred ->
     SoftmaxCrossEntropy_call g_batch_size pred label = Ok (loss, grad) ->
     exists g0 gs,
       backprop (layers m1) grad = Ok (g0, gs) /\
       Forall2 grads_fit (layers m1) gs /\
       MLP_backward g_batch_size input label lr m =
         (Ok loss, mkMLP (layer_size m) (zip_with (sgd_layer lr) (layers m1) gs))).
Proof.
  intros m1. split; [apply MLP_backward_two_phase |]. split.
  - subst m1. unfold MLP_forward, with_layers.
    pose proof (forward_loop_params (layers m) input) as E.
    destruct (forward_loop (layers m) input) as [r ls]; exact E.
  - intros Hwf Htr pred loss grad Hf Hl.
    exact (MLP_backward_pointwise g_batch_size m input label lr pred loss grad
             Hwf Htr Hf Hl).
Qed.

(** ** What the constructor establishes and the train step keeps *)

Lemma LinearLayer_init_fields (a b : nat) noise (l : LinearLayer F) :
  LinearLayer_init a b noise = Ok l ->
  input_size l = a /\ output_size l = b /\
  shape (weights l) = (a, b) /\ bias l = zeros 1 b /\
  last_input l = None /\ training l = false.
Proof.
  unfold LinearLayer_init. destruct (a =? 0); [discriminate |].
  intros [= <-]. repeat split; reflexivity.
Qed.

Lemma chain_wf_insert_linear (sizes : list nat) (st : list (NNLayer F)) :
  chain_wf sizes st ->
  forall (i : nat) (l l' : LinearLayer F),
    st !! i = Some (Linear l) ->
    shape (weights l') = shape (weights l) ->
    shape (bias l') = shape (bias l) ->
    chain_wf sizes (<[i := Linear l']> st).
Proof.
  induction 1 as [a | a b l0 [Hw0 Hb0] | a b c rest l0 t ls [Hw0 Hb0] Hch IH];
    intros i l l' Hi Hw Hb.
  - discriminate.
  - destruct i as [| i]; [| discriminate]. cbn in Hi. injection Hi as ->.
    cbn. constructor. split; congruence.
  - destruct i as [| [| i]]; cbn in Hi |- *.
    + injection Hi as ->. constructor; [split; congruence | exact Hch].
    + discriminate.
    + constructor; [split; assumption |]. eapply IH; eassumption.
Qed.

Lemma sgd_weights_keeps (sizes : list nat) (w : nat) gw (lr : F) (st : list (NNLayer F)) :
  chain_wf sizes st ->
  Forall (fun l => nn_training l = true) st ->
  chain_wf sizes (sgd_weights w gw lr st).2 /\
  Forall (fun l => nn_training l = true) (sgd_weights w gw lr st).2.
Proof.
  intros Hwf Htr. unfold sgd_weights.
  destruct gw as [g |]; [| auto].
  destruct (st !! w) as [[l | t] |] eqn:El; auto.
  destruct (inplace2 f_sub (weights l) _) as [w' | e] eqn:Ew; cbn; auto.
  apply inplace2_shape in Ew. split.
  - eapply chain_wf_insert_linear; [exact Hwf | exact El | exact Ew | reflexivity].
  - apply Forall_insert; [exact Htr |].
    exact (Forall_lookup_1 _ _ _ _ Htr El).
Qed.

Lemma sgd_bias_keeps (sizes : list nat) (b : option nat) gb (lr : F) (st : list (NNLayer F)) :
  chain_wf sizes st ->
  Forall (fun l => nn_training l = true) st ->
  chain_wf sizes (sgd_bias b gb lr st).2 /\
  Forall (fun l => nn_training l = true) (sgd_bias b gb lr st).2.
Proof.
  intros Hwf Htr. unfold sgd_bias.
  destruct b as [i |]; [| auto]. destruct gb as [g |]; [| auto].
  destruct (st !! i) as [[l | t] |] eqn:El; auto.
  destruct (inplace2 f_sub (bias l) _) as [b' | e] eqn:Eb; cbn; auto.
  apply inplace2_shape in Eb. split.
  - eapply chain_wf_insert_linear; [exact Hwf | exact El | reflexivity | exact Eb].
  - apply Forall_insert; [exact Htr |].
    exact (Forall_lookup_1 _ _ _ _ Htr El).
Qed.

Lemma update_loop_keeps (sizes : list nat) zs (lr : F) :
  forall st : list (NNLayer F),
    chain_wf sizes st ->
    Forall (fun l => nn_training l = true) st ->
    chain_wf sizes (update_loop zs lr st).2 /\
    Forall (fun l => nn_training l = true) (update_loop zs lr st).2.
Proof.
  induction zs as [| [[[w gw] b] gb] zs IH]; intros st Hwf Htr; cbn [update_loop].
  - auto.
  - unfold st_bind.
    destruct (sgd_weights_keeps sizes w gw lr st Hwf Htr) as [Hwf1 Htr1].
    destruct (sgd_weights w gw lr st) as [[[] | e] st1]; cbn in Hwf1, Htr1; [| auto].
    destruct (sgd_bias_keeps sizes b gb lr st1 Hwf1 Htr1) as [Hwf2 Htr2].
    destruct (sgd_bias b gb lr st1) as [[[] | e] st2]; cbn in Hwf2, Htr2; [| auto].
    apply IH; assumption.
Qed.

Lemma forward_loop_training (ls : list (NNLayer F)) x :
  Forall (fun l => nn_training l = true) ls ->
  Forall (fun l => nn_training l = true) (forward_loop ls x).2.
Proof.
  revert x. induction ls as [| l ls IH]; intros x Htr; cbn [forward_loop].
  - constructor.
  - apply Forall_cons in Htr as [Hl Htr].
    destruct (NNLayer_forward_training_mode l x Hl) as (_ & _ & Hl').
    destruct (NNLayer_forward l x) as [[y | e] l']; cbn in Hl'.
    + specialize (IH y Htr). destruct (forward_loop ls y) as [r ls']. cbn in *.
      constructor; assumption.
    + cbn. constructor; assumption.
Qed.

(** A network built over its chain of widths and in training mode is still
    so after a train step, however the step ends. *)
Lemma MLP_backward_keeps (g_batch_size : option Z) (m : MLP F) input label (lr : F) :
  mlp_wf m ->
  Forall (fun l => nn_training l = true) (layers m) ->
  mlp_wf (MLP_backward g_batch_size input label lr m).2 /\
  Forall (fun l => nn_training l = true)
         (layers (MLP_backward g_batch_size input label lr m).2).
Proof.
  unfold mlp_wf. intros Hwf Htr.
  unfold MLP_backward, st_bind, st_lift, MLP_forward, with_layers.
  pose proof (forward_loop_wf _ _ Hwf input) as Hwf1.
  pose proof (forward_loop_training _ input Htr) as Htr1.
  destruct (forward_loop (layers m) input) as [[pred | e] ls1]; cbn in Hwf1, Htr1 |- *;
    [| auto].
  destruct (SoftmaxCrossEntropy_call g_batch_size pred label) as [lg | e]; cbn; [| auto].
  rewrite sweep_frozen.
  destruct (frozen_sweep ls1 _ _ _) as [gp | e]; cbn; [| auto].
  destruct (update_loop_keeps (layer_size m) (zip_lists gp.2) lr ls1 Hwf1 Htr1) as [H1 H2].
  destruct (update_loop (zip_lists gp.2) lr ls1) as [[[] | e] st3]; cbn in *; auto.
Qed.

Lemma chain_wf_mode (sizes : list nat) (ls : list (NNLayer F)) :
  chain_wf sizes ls ->
  chain_wf sizes (NNLayer_train <$> ls) /\ chain_wf sizes (NNLayer_eval <$> ls).
Proof.
  induction 1 as [a | a b l Hl | a b c rest l t ls Hl Hch [IH1 IH2]];
    split; cbn; constructor; assumption.
Qed.

Lemma MLP_mode_wf (m : MLP F) :
  mlp_wf m -> mlp_wf (MLP_train m).2 /\ mlp_wf (MLP_eval m).2.
Proof. unfold mlp_wf. cbn. apply chain_wf_mode. Qed.

Lemma MLP_train_sets_training (m : MLP F) :
  Forall (fun l => nn_training l = true) (layers (MLP_train m).2).
Proof.
  cbn. apply Forall_fmap, Forall_forall. intros [l | t] _; reflexivity.
Qed.

(** ** The batches of one epoch *)

Lemma train_batch_counts (g_batch_size : option Z) (lr : F) inputs (labels : list Z)
    (shuffle_idx : list nat) (num_input batch_size start_idx : nat)
    (ts ts' : train_state F) :
  train_batch g_batch_size lr inputs labels shuffle_idx num_input batch_size start_idx ts
    = (Ok tt, ts') ->
  global_step ts' = S (global_step ts).
Proof.
  unfold train_batch, st_bind, st_lift, on_mlp.
  destruct (take_rows inputs _); [| discriminate].
  destruct (take_entries labels _); [| discriminate].
  destruct (MLP_backward _ _ _ _ _) as [[loss | e] m']; [| discriminate].
  cbn. destruct (_ =? 0); intros [= <-]; reflexivity.
Qed.

(** With a positive [batch_size] the loop of an epoch ends within
    [num_input] turns. *)
Lemma batch_loop_terminates (fuel : nat) :
  forall (g_batch_size : option Z) (lr : F) inputs (labels : list Z)
         (shuffle_idx : list nat) (num_input batch_size start_idx : nat)
         (ts : train_state F),
    0 < batch_size ->
    num_input - start_idx <= fuel ->
    batch_loop fuel g_batch_size lr inputs labels shuffle_idx
               num_input batch_size start_idx ts <> None.
Proof.
  induction fuel as [| fuel IH]; intros g lr inputs labels sh N B s ts HB Hf;
    cbn [batch_loop]; destruct (Nat.ltb_spec s N) as [Hs | Hs]; try discriminate.
  - lia.
  - destruct (train_batch _ _ _ _ _ _ _ _ _) as [[[] | e] ts1]; [| discriminate].
    apply IH; [exact HB | lia].
Qed.

(** When every batch is processed, [mlp.backward] has been called once per
    batch: the number of calls from [start_idx] on is the ceiling of
    [(num_input - start_idx) / batch_size]. *)
Lemma batch_loop_counts (fuel : nat) :
  forall (g_batch_size : option Z) (lr : F) inputs (labels : list Z)
         (shuffle_idx : list nat) (num_input batch_size start_idx : nat)
         (ts ts' : train_state F),
    0 < batch_size ->
    batch_loop fuel g_batch_size lr inputs labels shuffle_idx
               num_input batch_size start_idx ts = Some (Ok tt, ts') ->
    global_step ts' =
      global_step ts + (num_input - start_idx + (batch_size - 1)) / batch_size.
Proof.
  induction fuel as [| fuel IH]; intros g lr inputs labels sh N B s ts ts' HB;
    cbn [batch_loop]; destruct (Nat.ltb_spec s N) as [Hs | Hs]; try discriminate.
  - intros [= <-]. replace (N - s) with 0 by lia.
    rewrite Nat.div_small by lia. lia.
  - destruct (train_batch _ _ _ _ _ _ _ _ _) as [[[] | e] ts1] eqn:Eb; [| discriminate].
    intros Hl. apply IH in Hl; [| exact HB].
    apply train_batch_counts in Eb. rewrite Hl, Eb.
    destruct (Nat.le_gt_cases (N - s) B) as [Hle | Hgt].
    + replace (N - (s + B)) with 0 by lia.
      rewrite (Nat.div_small (0 + (B - 1)) B) by lia.
      rewrite <- (Nat.div_unique (N - s + (B - 1)) B 1 (N - s - 1)) by lia. lia.
    + replace (N - s + (B - 1)) with (N - (s + B) + (B - 1) + 1 * B) by lia.
      rewrite Nat.div_add by lia. lia.
  - intros [= <-]. replace (N - s) with 0 by lia.
    rewrite Nat.div_small by lia. lia.
Qed.

(** The slice taken at [start_idx] has [batch_size] entries, or what is
    left of the permutation when that is less. *)
Lemma batch_slice_length (shuffle_idx : list nat) (num_input batch_size start_idx : nat) :
  length shuffle_idx = num_input ->
  length (take (Nat.min (start_idx + batch_size) num_input - start_idx)
               (drop start_idx shuffle_idx))
  = Nat.min batch_size (num_input - start_idx).
Proof.
  intros E. rewrite length_take, length_drop. lia.
Qed.

(** * Further properties of the layers *)

(** X1. [LinearLayer(input_size, output_size)] raises [ZeroDivisionError]
    when [input_size] is 0 (from [2 / input_size]).  For every other
    [input_size] it returns a layer in eval mode, without cached input, with
    a zero bias of shape [1, output_size] and with weights of shape
    [input_size, output_size] whose entries are the drawn samples times
    [sqrt(2 / input_size)]. *)
Theorem LinearLayer_init_outcome (a b : nat) (noise : nat -> nat -> F) :
  LinearLayer_init 0 b noise = Raise ZeroDivisionError /\
  exists l,
    LinearLayer_init (S a) b noise = Ok l /\
    input_size l = S a /\ output_size l = b /\
    last_input l = None /\ training l = false /\
    bias l = zeros 1 b /\
    shape (weights l) = (S a, b) /\
    forall i j, i < S a -> j < b ->
      get (weights l) i j =
        f_mul (noise i j) (f_sqrt (f_div (f_of_Z 2) (f_of_Z (Z.of_nat (S a))))).
Proof.
  split; [reflexivity |].
  eexists. split; [reflexivity |]. cbn [input_size output_size last_input training bias weights].
  repeat (split; [reflexivity |]).
  intros i j Hi Hj. rewrite get_amap by (cbn; lia).
  rewrite get_tabulate by lia. reflexivity.
Qed.

(** X2. With weights of shape [a, b], a bias of shape [1, b] and an input
    of shape [B, a], [LinearLayer.forward] returns [x . W + b]: a matrix of
    shape [B, b] whose entry [(i, j)] is the sum over [k] of
    [x[i][k] * W[k][j]], plus [b[0][j]] (the bias row is added to every
    row). *)
Theorem LinearLayer_forward_affine (self : LinearLayer F) x (B a b : nat) :
  linear_wf a b self ->
  shape x = (B, a) ->
  exists y,
    (LinearLayer_forward self x).1 = Ok y /\
    shape y = (B, b) /\
    forall i j, i < B -> j < b ->
      get y i j =
        f_add (f_sum ((fun k => f_mul (get x i k) (get (weights self) k j)) <$> seq 0 a))
              (get (bias self) 0 j).
Proof.
  intros [Sw Sb] Sx. unfold shape in *.
  injection Sw as Rw Cw. injection Sb as Rb Cb. injection Sx as Rx Cx.
  unfold LinearLayer_forward. cbn [fst snd].
  assert (Ew : weights (if training self then set_last_input (Some x) self else self)
               = weights self) by (destruct (training self); reflexivity).
  assert (Eb : bias (if training self then set_last_input (Some x) self else self)
               = bias self) by (destruct (training self); reflexivity).
  rewrite Ew, Eb.
  rewrite matmul_ok by congruence. cbn [mbind res_bind].
  unfold broadcast2. cbn [nrows ncols tabulate].
  rewrite Rx, Rb, Cw, Cb, bdim_one_r, bdim_same.
  eexists. split; [reflexivity |]. split; [reflexivity |].
  intros i j Hi Hj. rewrite get_tabulate by assumption.
  rewrite !bidx_lt by assumption.
  rewrite get_tabulate by lia.
  rewrite Cx. change (bidx 1 i) with 0. reflexivity.
Qed.

(** X3. A layer as its constructor leaves it is in eval mode: a [forward]
    on it caches nothing, so a [backward] right after it fails for want of a
    cached input, with the [RuntimeError] for a [LinearLayer] and with
    numpy's [TypeError] for a [Tanh]. *)
Theorem backward_after_forward_without_train (a b : nat) (noise : nat -> nat -> F)
    (x grad_y : ndarray F) :
  (exists l,
     LinearLayer_init (S a) b noise = Ok l /\
     (LinearLayer_forward l x).2 = l /\
     (LinearLayer_backward (LinearLayer_forward l x).2 grad_y).1
       = Raise (RuntimeError no_input_msg)) /\
  (Tanh_forward Tanh_init x).2 = Tanh_init /\
  (Tanh_backward (Tanh_forward Tanh_init x).2 grad_y).1 = Raise TypeError.
Proof.
  split; [| split; reflexivity].
  eexists. split; [reflexivity |]. split; reflexivity.
Qed.

(** X4. With a cached input [x] and an upstream gradient of the same
    shape, [Tanh.backward] returns [(grad_x, None, None, None, None)] where
    [grad_x] has that shape and entry [(i, j)] equal to
    [(1 - tanh(x[i][j])^2) * grad_y[i][j]]. *)
Theorem Tanh_backward_gradient (self : Tanh F) x grad_y :
  tanh_last_input self = Some x ->
  shape grad_y = shape x ->
  exists grad_x,
    Tanh_backward self grad_y = (Ok (grad_x, None, None, None, None), self) /\
    shape grad_x = shape x /\
    forall i j, i < nrows x -> j < ncols x ->
      get grad_x i j =
        f_mul (f_sub f_one (f_pow (f_tanh (get x i j)) 2)) (get grad_y i j).
Proof.
  intros Hx Sg. unfold shape in Sg. injection Sg as Rg Cg.
  unfold Tanh_backward. rewrite Hx.
  rewrite broadcast2_same_shape by (unfold shape; cbn; congruence).
  cbn [mbind res_bind]. eexists. split; [reflexivity |].
  split; [reflexivity |].
  intros i j Hi Hj. cbn [nrows ncols amap tabulate].
  rewrite get_tabulate by assumption.
  rewrite !get_amap by (cbn; assumption). reflexivity.
Qed.

(** X5. [Tanh.backward] does not compare the batch size of the gradient
    with that of the cached input; numpy's broadcasting decides.  A gradient
    of one row is accepted against a cache of [B] rows and gives a gradient of
    [B] rows; a gradient of [B'] rows with [B'] different from [B] and both
    different from 1 raises [ValueError]. *)
Theorem Tanh_backward_broadcasts (self : Tanh F) x grad_y (B B' n : nat) :
  tanh_last_input self = Some x ->
  shape x = (B, n) ->
  shape grad_y = (B', n) ->
  (B' = 1 ->
   exists grad_x,
     (Tanh_backward self grad_y).1 = Ok (grad_x, None, None, None, None) /\
     shape grad_x = (B, n)) /\
  (B' <> B -> B <> 1 -> B' <> 1 ->
   (Tanh_backward self grad_y).1 = Raise ValueError).
Proof.
  intros Hx Sx Sg. unfold shape in *. injection Sx as Rx Cx. injection Sg as Rg Cg.
  unfold Tanh_backward. rewrite Hx. cbn [fst].
  unfold broadcast2. cbn [nrows ncols amap tabulate]. rewrite Rx, Cx, Rg, Cg.
  split.
  - intros ->. rewrite bdim_one_r, bdim_same. cbn. eexists. split; reflexivity.
  - intros H1 H2 H3. unfold bdim at 1.
    destruct (Nat.eqb_spec B B'); [congruence |].
    destruct (Nat.eqb_spec B 1); [congruence |].
    destruct (Nat.eqb_spec B' 1); [congruence |]. reflexivity.
Qed.

(** * Further properties of the loss head *)

Lemma softmax_ok scores :
  0 < ncols scores ->
  exists probs, softmax scores = Ok probs /\ shape probs = shape scores.
Proof.
  intros HC. unfold softmax, max_axis1.
  destruct (Nat.eqb_spec (ncols scores) 0); [lia |]. cbn [mbind res_bind].
  unfold broadcast2 at 1. cbn [nrows ncols tabulate]. rewrite bdim_same, bdim_one_r.
  cbn [mbind res_bind].
  unfold inplace2, broadcast2. cbn [nrows ncols tabulate amap].
  rewrite bdim_same, bdim_one_r. cbn [mbind res_bind nrows ncols tabulate].
  rewrite !Nat.eqb_refl. cbn [andb]. eexists. split; reflexivity.
Qed.



Lemma norm_index_wrap (n : nat) (i : Z) :
  (- Z.of_nat n <= i < Z.of_nat n)%Z ->
  norm_index n (i mod Z.of_nat n) = norm_index n i.
Proof.
  intros Hi. destruct (Z.lt_ge_cases i 0) as [Hneg | Hpos].
  - assert (E : (i mod Z.of_nat n = i + Z.of_nat n)%Z).
    { symmetry. apply (Z.mod_unique_pos i (Z.of_nat n) (-1)); lia. }
    rewrite E. unfold norm_index.
    destruct (Z.leb_spec 0 (i + Z.of_nat n)); [| lia].
    destruct (Z.ltb_spec (i + Z.of_nat n) (Z.of_nat n)); [| lia].
    destruct (Z.leb_spec 0 i); [lia |].
    destruct (Z.leb_spec (- Z.of_nat n) i); [| lia].
    destruct (Z.ltb_spec i 0); [| lia]. reflexivity.
  - rewrite Z.mod_small by lia. reflexivity.
Qed.

Lemma norm_indices_wrap (n : nat) (l : list Z) :
  Forall (fun i => (- Z.of_nat n <= i < Z.of_nat n)%Z) l ->
  norm_indices n ((fun i => i mod Z.of_nat n)%Z <$> l) = norm_indices n l.
Proof.
  induction 1 as [| i l Hi Hl IH]; cbn; [reflexivity |].
  rewrite IH, (norm_index_wrap n i Hi). reflexivity.
Qed.


(** X6. Whatever the scores and labels of a batch, if the number of rows
    differs from the module-level [batch_size] and that is at least 2, the
    loss head raises [IndexError]: the head works for one batch size
    only. *)
Theorem loss_head_rejects_other_batch_sizes (bs : Z) scores (labels : list Z) :
  0 < ncols scores ->
  length labels = nrows scores ->
  (2 <= bs)%Z ->
  Z.of_nat (nrows scores) <> bs ->
  SoftmaxCrossEntropy_call (Some bs) scores labels = Raise IndexError.
Proof.
  intros HC Hlen Hbs Hne.
  apply loss_head_row_mismatch; try assumption.
  destruct (softmax_ok scores HC) as (probs & -> & _). exact I.
Qed.

(** X7. When the module-level [batch_size] is the number [B] of rows of
    [scores], there is at least one class and every label is in [0, C), the
    loss head returns the mean over the rows of [-log] of the probability of
    the row's label, and the gradient whose entry [(i, j)] is
    [(probs[i][j] - one_hot(labels)[i][j]) / B]. *)
Theorem loss_head_gradient_when_rows_match scores (labels : list Z) (B C : nat) :
  shape scores = (B, C) ->
  0 < C ->
  length labels = B ->
  Forall (fun l => (0 <= l < Z.of_nat C)%Z) labels ->
  exists probs,
    softmax scores = Ok probs /\ shape probs = (B, C) /\
    SoftmaxCrossEntropy_call (Some (Z.of_nat B)) scores labels =
      Ok (mean (f_neg <$> (f_log <$>
                  ((fun p : nat * nat => get probs p.1 p.2)
                     <$> zip (seq 0 B) (Z.to_nat <$> labels)))),
          tabulate B C (fun i j =>
            f_div (f_sub (get probs i j) (one_hot_entry (Z.to_nat <$> labels) i j))
                  (f_of_Z (Z.of_nat B)))).
Proof. exact (loss_head_matching_rows scores labels B C). Qed.

(** X8. A negative label is not rejected: with [C] classes, a label [l]
    in [-C, 0) is read as class [l + C] (numpy's indexing from the end), so
    the head returns for it exactly what it returns for [l + C]. *)
Theorem loss_head_negative_labels_wrap (g_batch_size : option Z) scores
    (labels : list Z) :
  Forall (fun l => (- Z.of_nat (ncols scores) <= l < Z.of_nat (ncols scores))%Z) labels ->
  SoftmaxCrossEntropy_call g_batch_size scores
      ((fun l => l mod Z.of_nat (ncols scores))%Z <$> labels)
  = SoftmaxCrossEntropy_call g_batch_size scores labels.
Proof.
  intros Hl. unfold SoftmaxCrossEntropy_call.
  destruct (softmax scores) as [probs |] eqn:Ep; [| reflexivity].
  apply softmax_shape in Ep. unfold shape in Ep. injection Ep as Er Ec.
  cbn [mbind res_bind].
  destruct (read_global g_batch_size) as [bs |]; [| reflexivity].
  cbn [mbind res_bind].
  unfold fancy_positions. rewrite Ec, (norm_indices_wrap _ _ Hl). reflexivity.
Qed.



(** * Further properties of the network *)

Lemma build_layers_ok (noise : nat -> nat -> nat -> F) (sizes : list nat) :
  forall k : nat,
    Forall (fun w : nat => 0 < w) (removelast sizes) ->
    exists ls,
      build_layers noise k sizes = Ok ls /\
      length ls = 2 * (length sizes - 1) - 1 /\
      Forall (fun l => nn_training l = false /\ nn_last_input l = None) ls.
Proof.
  induction sizes as [| a [| b rest] IH]; intros k Hpos.
  - exists []. repeat split; constructor.
  - exists []. repeat split; constructor.
  - change (removelast (a :: b :: rest)) with (a :: removelast (b :: rest)) in Hpos.
    apply Forall_cons in Hpos as [Ha Hpos].
    destruct (IH (S k) Hpos) as (ls & Els & Hlen & Hfresh).
    rewrite build_layers_cons, Els.
    unfold LinearLayer_init. destruct (Nat.eqb_spec a 0); [lia |].
    cbn [mbind res_bind]. eexists. split; [reflexivity |]. split.
    + destruct rest as [| c rest]; cbn [app length] in *; lia.
    + constructor; [split; reflexivity |].
      destruct rest; cbn [app]; [exact Hfresh |].
      constructor; [split; reflexivity | exact Hfresh].
Qed.

Lemma build_layers_zero_width (noise : nat -> nat -> nat -> F) (sizes : list nat) :
  forall k : nat,
    Exists (fun w : nat => w = 0) (removelast sizes) ->
    build_layers noise k sizes = Raise ZeroDivisionError.
Proof.
  induction sizes as [| a [| b rest] IH]; intros k Hex.
  - cbn in Hex. apply Exists_nil in Hex. contradiction.
  - cbn in Hex. apply Exists_nil in Hex. contradiction.
  - change (removelast (a :: b :: rest)) with (a :: removelast (b :: rest)) in Hex.
    rewrite build_layers_cons. unfold LinearLayer_init.
    destruct (Nat.eqb_spec a 0) as [-> | Ha]; [reflexivity |].
    apply Exists_cons in Hex as [-> | Hex]; [congruence |].
    rewrite (IH (S k) Hex). reflexivity.
Qed.

(** X11. The constructor loop of [MLP] over a chain of widths: if every
    width but the last is positive it returns a network over that chain with
    [2 * (number of widths - 1) - 1] layers (linear layers with a [Tanh]
    between them), all in eval mode and without cached input; if one of the
    widths but the last is 0 it raises [ZeroDivisionError].  For the chain of
    the source, [10, 10, 8, 8, 4], it returns 7 layers. *)
Theorem MLP_init_sizes_outcome (sizes : list nat) (noise : nat -> nat -> nat -> F) :
  (Forall (fun w : nat => 0 < w) (removelast sizes) ->
   exists m,
     MLP_init_sizes sizes noise = Ok m /\
     layer_size m = sizes /\
     length (layers m) = 2 * (length sizes - 1) - 1 /\
     (sizes <> [] -> mlp_wf m) /\
     Forall (fun l => nn_training l = false /\ nn_last_input l = None) (layers m)) /\
  (Exists (fun w : nat => w = 0) (removelast sizes) ->
   MLP_init_sizes sizes noise = Raise ZeroDivisionError) /\
  (exists m, MLP_init noise = Ok m /\ length (layers m) = 7).
Proof.
  split; [| split].
  - intros Hpos. destruct (build_layers_ok noise sizes 0 Hpos) as (ls & Els & Hlen & Hf).
    exists (mkMLP sizes ls). unfold MLP_init_sizes. rewrite Els.
    split; [reflexivity |]. split; [reflexivity |]. split; [exact Hlen |].
    split; [| exact Hf].
    intros Hne. unfold mlp_wf. cbn. eapply build_layers_wf; eassumption.
  - intros Hex. unfold MLP_init_sizes.
    rewrite (build_layers_zero_width noise sizes 0 Hex). reflexivity.
  - eexists. split; reflexivity.
Qed.

Lemma forward_loop_eval_mode (ls : list (NNLayer F)) x :
  Forall (fun l => nn_training l = false) ls -> (forward_loop ls x).2 = ls.
Proof.
  revert x. induction ls as [| l ls IH]; intros x Hev; cbn [forward_loop]; [reflexivity |].
  apply Forall_cons in Hev as [Hl Hev].
  pose proof (NNLayer_forward_eval_mode l x Hl) as El.
  destruct (NNLayer_forward l x) as [[y | e] l']; cbn in El; subst l'.
  - specialize (IH y Hev). destruct (forward_loop ls y) as [r ls']. cbn in *.
    congruence.
  - reflexivity.
Qed.

Lemma MLP_eval_sets_eval (m : MLP F) :
  Forall (fun l => nn_training l = false) (layers (MLP_eval m).2).
Proof.
  cbn. apply Forall_fmap, Forall_forall. intros [l | t] _; reflexivity.
Qed.

Lemma MLP_forward_eval_state (m : MLP F) x :
  Forall (fun l => nn_training l = false) (layers m) -> (MLP_forward x m).2 = m.
Proof.
  intros Hev. unfold MLP_forward, with_layers.
  pose proof (forward_loop_eval_mode (layers m) x Hev) as E.
  destruct (forward_loop (layers m) x) as [r ls]. cbn in *. subst ls.
  destruct m; reflexivity.
Qed.

(** X12. In eval mode inference has no side effect: if every layer is in
    eval mode, [MLP.forward] leaves the network exactly as it was (no cache
    written, no parameter changed), whether it returns or raises.  This is
    the case after [mlp.eval()]. *)
Theorem MLP_forward_eval_mode_pure (m : MLP F) x :
  (Forall (fun l => nn_training l = false) (layers m) -> (MLP_forward x m).2 = m) /\
  (MLP_forward x (MLP_eval m).2).2 = (MLP_eval m).2.
Proof.
  split; [apply MLP_forward_eval_state |].
  apply MLP_forward_eval_state, MLP_eval_sets_eval.
Qed.

(** X13. An input whose width is not the first width of the chain makes
    [MLP.forward] raise [ValueError] in the first layer; no later layer is
    touched, and the first layer has cached the rejected input if it is in
    training mode. *)
Theorem MLP_forward_width_mismatch (m : MLP F) x (L0 L1 : nat) (rest : list nat) :
  mlp_wf m ->
  layer_size m = L0 :: L1 :: rest ->
  ncols x <> L0 ->
  exists l0 ls,
    layers m = Linear l0 :: ls /\
    MLP_forward x m =
      (Raise ValueError,
       mkMLP (layer_size m)
             (Linear (if training l0 then set_last_input (Some x) l0 else l0) :: ls)).
Proof.
  unfold mlp_wf. intros Hwf Hs Hx. rewrite Hs in Hwf.
  assert (Hfirst : exists l0 ls, layers m = Linear l0 :: ls /\ nrows (weights l0) = L0).
  { inversion Hwf as [| a b l [Hw _] | a b c r l t ls [Hw _] Hch]; subst;
      eexists _, _; (split; [reflexivity |]); unfold shape in Hw; congruence. }
  destruct Hfirst as (l0 & ls & El & Hw). exists l0, ls. split; [exact El |].
  unfold MLP_forward, with_layers. rewrite El. cbn [forward_loop NNLayer_forward].
  unfold LinearLayer_forward, matmul.
  assert (Ew : weights (if training l0 then set_last_input (Some x) l0 else l0)
               = weights l0) by (destruct (training l0); reflexivity).
  rewrite Ew.
  destruct (Nat.eqb_spec (ncols x) (nrows (weights l0))); [congruence |]. reflexivity.
Qed.

(** X14. The loop of [MLP.forward] composes: running it over the layers
    [ls1 ++ ls2] is running it over [ls1] and, if that returns, over [ls2] on
    the result; if the first part raises, the second part is not touched. *)
Theorem forward_loop_app (ls1 ls2 : list (NNLayer F)) x :
  forward_loop (ls1 ++ ls2) x =
    match forward_loop ls1 x with
    | (Ok y, ls1') => ((forward_loop ls2 y).1, ls1' ++ (forward_loop ls2 y).2)
    | (Raise e, ls1') => (Raise e, ls1' ++ ls2)
    end.
Proof.
  revert x. induction ls1 as [| l ls1 IH]; intros x; cbn [app forward_loop].
  - destruct (forward_loop ls2 x); reflexivity.
  - destruct (NNLayer_forward l x) as [[y | e] l']; [| reflexivity].
    rewrite IH. destruct (forward_loop ls1 y) as [[z | e] ls1']; reflexivity.
Qed.

(** X15. A network whose layers follow its chain of widths and are all in
    training mode is still so after [MLP.backward], whether the step returns
    or raises, and at whatever point it raises. *)
Theorem MLP_backward_keeps_invariants (g_batch_size : option Z) (m : MLP F)
    input (label : list Z) (lr : F) :
  mlp_wf m ->
  Forall (fun l => nn_training l = true) (layers m) ->
  mlp_wf (MLP_backward g_batch_size input label lr m).2 /\
  Forall (fun l => nn_training l = true)
         (layers (MLP_backward g_batch_size input label lr m).2).
Proof. exact (MLP_backward_keeps g_batch_size m input label lr). Qed.

(** X16. On a network whose layers follow its chain of widths and are all
    in training mode, a train step that raises has changed no weight and no
    bias: the update loop is reached only when it is going to complete. *)
Theorem MLP_backward_failure_keeps_parameters (g_batch_size : option Z) (m : MLP F)
    input (label : list Z) (lr : F) (e : exn) :
  mlp_wf m ->
  Forall (fun l => nn_training l = true) (layers m) ->
  (MLP_backward g_batch_size input label lr m).1 = Raise e ->
  nn_params <$> layers (MLP_backward g_batch_size input label lr m).2
  = nn_params <$> layers m.
Proof.
  intros Hwf Htr He.
  assert (Hp : nn_params <$> layers (MLP_forward input m).2 = nn_params <$> layers m).
  { unfold MLP_forward, with_layers.
    pose proof (forward_loop_params (layers m) input) as E.
    destruct (forward_loop (layers m) input) as [r ls]; exact E. }
  destruct (MLP_forward input m).1 as [pred |] eqn:Ef.
  - destruct (SoftmaxCrossEntropy_call g_batch_size pred label) as [[loss grad] |] eqn:El.
    + destruct (MLP_backward_pointwise g_batch_size m input label lr pred loss grad
                  Hwf Htr Ef El) as (g0 & gs & _ & _ & E).
      rewrite E in He. discriminate.
    + unfold MLP_backward, st_bind, st_lift in *.
      destruct (MLP_forward input m) as [r m1]. cbn in Ef, Hp. subst r.
      rewrite El. exact Hp.
  - unfold MLP_backward, st_bind in *.
    destruct (MLP_forward input m) as [r m1]. cbn in Ef, Hp. subst r. exact Hp.
Qed.

Lemma chain_wf_last_linear (sizes : list nat) (ls : list (NNLayer F)) :
  chain_wf sizes ls ->
  2 <= length sizes ->
  exists ls' l, ls = ls' ++ [Linear l].
Proof.
  induction 1 as [a | a b l Hl | a b c rest l t ls Hl Hch IH]; intros Hlen.
  - cbn in Hlen. lia.
  - exists [], l. reflexivity.
  - destruct IH as (ls' & l' & ->); [cbn; lia |].
    exists (Linear l :: TanhLayer t :: ls'), l'. reflexivity.
Qed.

(** X17. A train step on a network that was never switched to training
    mode (every layer in eval mode and without cached input, as the
    constructor leaves it) never returns and changes nothing: the forward
    pass caches no input, and if the forward pass and the loss succeed, the
    reverse sweep raises the [RuntimeError] of the last linear layer. *)
Theorem MLP_backward_without_train (g_batch_size : option Z) (m : MLP F)
    input (label : list Z) (lr : F) :
  mlp_wf m ->
  2 <= length (layer_size m) ->
  Forall (fun l => nn_training l = false /\ nn_last_input l = None) (layers m) ->
  (MLP_backward g_batch_size input label lr m).2 = m /\
  ~ is_Ok (MLP_backward g_batch_size input label lr m).1 /\
  forall pred lg,
    (MLP_forward input m).1 = Ok pred ->
    SoftmaxCrossEntropy_call g_batch_size pred label = Ok lg ->
    (MLP_backward g_batch_size input label lr m).1 = Raise (RuntimeError no_input_msg).
Proof.
  intros Hwf Hlen Hfresh.
  assert (Hev : Forall (fun l => nn_training l = false) (layers m)).
  { eapply Forall_impl; [exact Hfresh |]. intros l [H _]. exact H. }
  pose proof (MLP_forward_eval_state m input Hev) as Est.
  destruct (chain_wf_last_linear _ _ Hwf Hlen) as (ls' & l & Els).
  assert (Hl : last_input l = None).
  { rewrite Els in Hfresh. apply Forall_app in Hfresh as [_ Hl].
    apply Forall_cons in Hl as [[_ Hl] _]. exact Hl. }
  assert (Hbp : forall grad, backprop (layers m) grad = Raise (RuntimeError no_input_msg)).
  { intros grad. rewrite Els, backprop_snoc, NNLayer_backward_Linear.
    unfold LinearLayer_backward. rewrite Hl. reflexivity. }
  rewrite MLP_backward_two_phase.
  unfold train_step_two_phase, st_bind, st_lift.
  destruct (MLP_forward input m) as [r m1]. cbn in Est. subst m1.
  destruct r as [pred | e]; cbn.
  - destruct (SoftmaxCrossEntropy_call g_batch_size pred label) as [lg |] eqn:El; cbn.
    + unfold with_layers. rewrite Hbp. cbn. destruct m; cbn.
      split; [reflexivity |]. split; [tauto |]. intros; reflexivity.
    + split; [reflexivity |]. split; [tauto |].
      intros p lg' [= <-] Hc. rewrite El in Hc. discriminate.
  - split; [reflexivity |]. split; [tauto |]. intros p lg'. discriminate.
Qed.

Lemma NNLayer_mode_compose (l : NNLayer F) :
  NNLayer_eval (NNLayer_train l) = NNLayer_eval l /\
  NNLayer_train (NNLayer_eval l) = NNLayer_train l /\
  NNLayer_train (NNLayer_train l) = NNLayer_train l /\
  NNLayer_eval (NNLayer_eval l) = NNLayer_eval l.
Proof. destruct l; repeat split; reflexivity. Qed.

(** X18. [mlp.train()] and [mlp.eval()] only set the mode flags: each is
    idempotent, the later of two switches wins, every layer ends in the mode
    asked for, and the weights, biases and cached inputs of all layers are
    what they were. *)
Theorem MLP_mode_switches (m : MLP F) :
  (MLP_eval (MLP_train m).2).2 = (MLP_eval m).2 /\
  (MLP_train (MLP_eval m).2).2 = (MLP_train m).2 /\
  (MLP_train (MLP_train m).2).2 = (MLP_train m).2 /\
  (MLP_eval (MLP_eval m).2).2 = (MLP_eval m).2 /\
  Forall (fun l => nn_training l = true) (layers (MLP_train m).2) /\
  Forall (fun l => nn_training l = false) (layers (MLP_eval m).2) /\
  nn_params <$> layers (MLP_train m).2 = nn_params <$> layers m /\
  nn_params <$> layers (MLP_eval m).2 = nn_params <$> layers m /\
  nn_last_input <$> layers (MLP_train m).2 = nn_last_input <$> layers m /\
  nn_last_input <$> layers (MLP_eval m).2 = nn_last_input <$> layers m.
Proof.
  cbn.
  repeat split;
    try (f_equal; rewrite <- list_fmap_compose; apply list_fmap_ext;
         intros i l _; cbn; apply NNLayer_mode_compose);
    try (apply Forall_fmap, Forall_forall; intros [l | t] _; reflexivity);
    try (rewrite <- list_fmap_compose; apply list_fmap_ext;
         intros i [l | t] _; reflexivity).
Qed.

(** * Further properties of the trainer *)

Lemma MLP_backward_ready (sizes : list nat) (g_batch_size : option Z) (m : MLP F)
    input (label : list Z) (lr : F) :
  ready sizes m -> ready sizes (MLP_backward g_batch_size input label lr m).2.
Proof.
  intros (Hs & Hwf & Htr). subst sizes.
  destruct (MLP_backward_keeps g_batch_size m input label lr Hwf Htr) as [H1 H2].
  assert (E : layer_size (MLP_backward g_batch_size input label lr m).2 = layer_size m).
  { unfold MLP_backward, st_bind, st_lift, MLP_forward, with_layers.
    destruct (forward_loop (layers m) input) as [[pred | e] ls1]; [| reflexivity].
    destruct (SoftmaxCrossEntropy_call g_batch_size pred label) as [lg | e];
      [| reflexivity].
    cbn. destruct (sweep _ _ _ _) as [[gp | e] st2]; [| reflexivity].
    destruct (update_loop _ _ _) as [[[] | e] st3]; reflexivity. }
  unfold ready, mlp_wf in *. rewrite E in *. auto.
Qed.

Lemma train_batch_ready (sizes : list nat) (g_batch_size : option Z) (lr : F) inputs
    (labels : list Z) (shuffle_idx : list nat) (num_input batch_size start_idx : nat)
    (ts : train_state F) :
  ready sizes (mlp ts) ->
  ready sizes
    (mlp (train_batch g_batch_size lr inputs labels shuffle_idx num_input batch_size
                      start_idx ts).2).
Proof.
  intros Hr. unfold train_batch, st_bind, st_lift, on_mlp.
  destruct (take_rows inputs _) as [bi |]; [| exact Hr].
  destruct (take_entries labels _) as [bl |]; [| exact Hr].
  pose proof (MLP_backward_ready sizes g_batch_size (mlp ts) bi bl lr Hr) as Hr'.
  destruct (MLP_backward g_batch_size bi bl lr (mlp ts)) as [[loss | e] m']; cbn in Hr' |- *.
  - destruct (_ =? 0); exact Hr'.
  - exact Hr'.
Qed.

Lemma batch_loop_ready (sizes : list nat) (fuel : nat) :
  forall (g_batch_size : option Z) (lr : F) inputs (labels : list Z)
         (shuffle_idx : list nat) (num_input batch_size start_idx : nat)
         (ts : train_state F) r ts',
    ready sizes (mlp ts) ->
    batch_loop fuel g_batch_size lr inputs labels shuffle_idx
               num_input batch_size start_idx ts = Some (r, ts') ->
    ready sizes (mlp ts').
Proof.
  induction fuel as [| fuel IH]; intros g lr inputs labels sh N B s ts r ts' Hr;
    cbn [batch_loop]; destruct (s <? N); try discriminate.
  - intros [= _ <-]. exact Hr.
  - pose proof (train_batch_ready sizes g lr inputs labels sh N B s ts Hr) as Hr1.
    destruct (train_batch _ _ _ _ _ _ _ _ _) as [[[] | e] ts1]; cbn in Hr1.
    + apply IH. exact Hr1.
    + intros [= _ <-]. exact Hr1.
  - intros [= _ <-]. exact Hr.
Qed.

Lemma epoch_loop_ready (sizes : list nat) (es : list nat) :
  forall (g_batch_size : option Z) (lr : F) inputs (labels : list Z)
         (permutation : nat -> list nat) (num_input batch_size : nat)
         (ts : train_state F) r ts',
    ready sizes (mlp ts) ->
    epoch_loop es g_batch_size lr inputs labels permutation num_input batch_size ts
      = Some (r, ts') ->
    ready sizes (mlp ts').
Proof.
  induction es as [| epoch es IH]; intros g lr inputs labels perm N B ts r ts' Hr;
    cbn [epoch_loop].
  - intros [= _ <-]. exact Hr.
  - destruct (batch_loop N g lr inputs labels (perm epoch) N B 0 ts)
      as [[[[] | e] ts1] |] eqn:Eb; try discriminate.
    + apply IH. eapply batch_loop_ready; eassumption.
    + intros [= _ <-]. eapply batch_loop_ready; eassumption.
Qed.

Lemma chain_wf_even_linear (sizes : list nat) (ls : list (NNLayer F)) :
  chain_wf sizes ls ->
  forall (i : nat) (l : NNLayer F),
    ls !! i = Some l -> Nat.even i = true -> exists ll, l = Linear ll.
Proof.
  induction 1 as [a | a b l0 Hl | a b c rest l0 t ls Hl Hch IH]; intros i l Hi Hev.
  - discriminate.
  - destruct i as [| i]; [| discriminate]. cbn in Hi. injection Hi as <-. eauto.
  - destruct i as [| [| i]]; cbn in Hi.
    + injection Hi as <-. eauto.
    + discriminate.
    + eapply IH; [exact Hi | exact Hev].
Qed.

Lemma print_net_wf (sizes : list nat) (ls : list (NNLayer F)) :
  chain_wf sizes ls -> print_net ls = Ok tt.
Proof.
  intros Hwf. unfold print_net.
  replace (forallb _ _) with true; [reflexivity |].
  symmetry. apply forallb_forall. intros [i l] Hin.
  apply list_elem_of_In, elem_of_lookup_imap in Hin as (i' & l' & [= -> ->] & Hl).
  cbn. destruct (Nat.even i') eqn:Hev; [| reflexivity].
  destruct (chain_wf_even_linear _ _ Hwf i' l' Hl Hev) as (ll & ->). reflexivity.
Qed.

Lemma MLP_train_ready (m : MLP F) : mlp_wf m -> ready (layer_size m) (MLP_train m).2.
Proof.
  intros Hwf. split; [reflexivity |]. split.
  - apply (MLP_mode_wf m Hwf).
  - apply MLP_train_sets_training.
Qed.

(** X19. With a positive [batch_size], [train] ends for every dataset,
    number of epochs and outcome of the steps: each epoch's loop makes at most
    [num_input] turns. *)
Theorem train_terminates (g_batch_size : option Z) (permutation : nat -> list nat)
    (m : MLP F) (epochs : nat) (lr : F) inputs (input_labels : ndarray Z)
    (batch_size : nat) :
  0 < batch_size ->
  train g_batch_size permutation m epochs lr inputs input_labels batch_size <> None.
Proof.
  intros HB. unfold train.
  destruct (argmax_axis1 input_labels) as [labels |]; [| discriminate].
  assert (He : forall es ts,
             epoch_loop es g_batch_size lr inputs labels permutation
                        (nrows inputs) batch_size ts <> None).
  { induction es as [| epoch es IH]; intros ts; cbn [epoch_loop]; [discriminate |].
    pose proof (batch_loop_terminates (nrows inputs) g_batch_size lr inputs labels
                  (permutation epoch) (nrows inputs) batch_size 0 ts HB) as Hb.
    destruct (batch_loop _ _ _ _ _ _ _ _ _ _) as [[[[] | e] ts1] |].
    - apply IH.
    - discriminate.
    - exfalso. apply Hb; [lia | reflexivity]. }
  specialize (He (seq 0 epochs) (mkTrain (MLP_train m).2 0 f_zero [])).
  destruct (epoch_loop _ _ _ _ _ _ _ _ _) as [[[[] | e] ts] |].
  - unfold PRINT_NET. destruct (print_net _); discriminate.
  - discriminate.
  - contradiction.
Qed.

Lemma batch_loop_zero_batch_size (fuel : nat) :
  forall (g_batch_size : option Z) (lr : F) inputs (labels : list Z)
         (shuffle_idx : list nat) (num_input start_idx : nat) (ts ts' : train_state F),
    start_idx < num_input ->
    batch_loop fuel g_batch_size lr inputs labels shuffle_idx num_input 0 start_idx ts
      <> Some (Ok tt, ts').
Proof.
  induction fuel as [| fuel IH]; intros g lr inputs labels sh N s ts ts' Hs;
    cbn [batch_loop]; destruct (Nat.ltb_spec s N); try lia; [discriminate |].
  destruct (train_batch _ _ _ _ _ _ _ _ _) as [[[] | e] ts1]; [| discriminate].
  rewrite Nat.add_0_r. apply IH. exact Hs.
Qed.

(** X20. With [batch_size = 0], a dataset that is not empty and at least
    one epoch, [train] never returns its list of losses: [start_idx] does not
    advance, so the run either raises or goes on for ever. *)
Theorem train_zero_batch_size_never_returns (g_batch_size : option Z)
    (permutation : nat -> list nat) (m : MLP F) (epochs : nat) (lr : F) inputs
    (input_labels : ndarray Z) (losses : list F) (m' : MLP F) :
  0 < nrows inputs ->
  0 < epochs ->
  train g_batch_size permutation m epochs lr inputs input_labels 0
    <> Some (Ok losses, m').
Proof.
  intros HN He. unfold train.
  destruct (argmax_axis1 input_labels) as [labels |]; [| discriminate].
  destruct epochs as [| epochs]; [lia |].
  rewrite <- cons_seq. cbn [epoch_loop].
  pose proof (batch_loop_zero_batch_size (nrows inputs) g_batch_size lr inputs labels
                (permutation 0) (nrows inputs) 0
                (mkTrain (MLP_train m).2 0 f_zero [])) as Hb.
  destruct (batch_loop _ _ _ _ _ _ _ _ _ _) as [[[[] | e] ts1] |].
  - exfalso. exact (Hb ts1 HN eq_refl).
  - discriminate.
  - discriminate.
Qed.

Lemma report_count_step (n : nat) :
  (S n mod 4 = 0 -> S n / 4 = n / 4 + 1) /\ (S n mod 4 <> 0 -> S n / 4 = n / 4).
Proof.
  pose proof (Nat.div_mod_eq n 4). pose proof (Nat.div_mod_eq (S n) 4).
  pose proof (Nat.mod_upper_bound n 4). pose proof (Nat.mod_upper_bound (S n) 4).
  lia.
Qed.

Lemma train_batch_reports (g_batch_size : option Z) (lr : F) inputs (labels : list Z)
    (shuffle_idx : list nat) (num_input batch_size start_idx : nat)
    (ts ts' : train_state F) :
  train_batch g_batch_size lr inputs labels shuffle_idx num_input batch_size start_idx ts
    = (Ok tt, ts') ->
  length (loss_list ts) = global_step ts / LOSS_STEP ->
  length (loss_list ts') = global_step ts' / LOSS_STEP.
Proof.
  unfold train_batch, st_bind, st_lift, on_mlp, LOSS_STEP.
  destruct (take_rows inputs _); [| discriminate].
  destruct (take_entries labels _); [| discriminate].
  destruct (MLP_backward _ _ _ _ _) as [[loss | e] m']; [| discriminate].
  cbn [global_step loss_list accum_loss mlp].
  destruct (report_count_step (global_step ts)) as [H0 H1].
  destruct (Nat.eqb_spec (S (global_step ts) mod 4) 0) as [E | E];
    intros [= <-] Hlen; cbn [global_step loss_list].
  - rewrite length_app. cbn [length]. rewrite Hlen, (H0 E). reflexivity.
  - rewrite Hlen, (H1 E). reflexivity.
Qed.

Lemma batch_loop_reports (fuel : nat) :
  forall (g_batch_size : option Z) (lr : F) inputs (labels : list Z)
         (shuffle_idx : list nat) (num_input batch_size start_idx : nat)
         (ts ts' : train_state F),
    batch_loop fuel g_batch_size lr inputs labels shuffle_idx
               num_input batch_size start_idx ts = Some (Ok tt, ts') ->
    length (loss_list ts) = global_step ts / LOSS_STEP ->
    length (loss_list ts') = global_step ts' / LOSS_STEP.
Proof.
  induction fuel as [| fuel IH]; intros g lr inputs labels sh N B s ts ts';
    cbn [batch_loop]; destruct (s <? N); try discriminate.
  - intros [= <-] H. exact H.
  - destruct (train_batch _ _ _ _ _ _ _ _ _) as [[[] | e] ts1] eqn:Eb; [| discriminate].
    intros Hl Hlen. eapply IH; [exact Hl |].
    eapply train_batch_reports; eassumption.
  - intros [= <-] H. exact H.
Qed.

Lemma epoch_loop_reports (es : list nat) :
  forall (g_batch_size : option Z) (lr : F) inputs (labels : list Z)
         (permutation : nat -> list nat) (num_input batch_size : nat)
         (ts ts' : train_state F),
    0 < batch_size ->
    epoch_loop es g_batch_size lr inputs labels permutation num_input batch_size ts
      = Some (Ok tt, ts') ->
    length (loss_list ts) = global_step ts / LOSS_STEP ->
    global_step ts' =
      global_step ts + length es * ((num_input + (batch_size - 1)) / batch_size) /\
    length (loss_list ts') = global_step ts' / LOSS_STEP.
Proof.
  induction es as [| epoch es IH]; intros g lr inputs labels perm N B ts ts' HB;
    cbn [epoch_loop].
  - intros [= <-] H. cbn. split; [lia | exact H].
  - destruct (batch_loop N g lr inputs labels (perm epoch) N B 0 ts)
      as [[[[] | e] ts1] |] eqn:Eb; try discriminate.
    intros He Hlen.
    pose proof (batch_loop_counts _ _ _ _ _ _ _ _ _ _ _ HB Eb) as Hc.
    pose proof (batch_loop_reports _ _ _ _ _ _ _ _ _ _ _ Eb Hlen) as Hl1.
    destruct (IH _ _ _ _ _ _ _ _ _ HB He Hl1) as [Hs Hl]. split; [| exact Hl].
    rewrite Hs, Hc, Nat.sub_0_r. cbn [length]. lia.
Qed.

(** X21. When [train] returns, the list of losses has one entry per
    [LOSS_STEP] = 4 completed steps: its length is
    [(epochs * ceil(num_input / batch_size)) / 4], rounded down; the steps
    after the last full group of 4 are not reported. *)
Theorem train_report_count (g_batch_size : option Z) (permutation : nat -> list nat)
    (m : MLP F) (epochs : nat) (lr : F) inputs (input_labels : ndarray Z)
    (batch_size : nat) (losses : list F) (m' : MLP F) :
  0 < batch_size ->
  train g_batch_size permutation m epochs lr inputs input_labels batch_size
    = Some (Ok losses, m') ->
  length losses =
    (epochs * ((nrows inputs + (batch_size - 1)) / batch_size)) / LOSS_STEP.
Proof.
  intros HB. unfold train.
  destruct (argmax_axis1 input_labels) as [labels |]; [| discriminate].
  destruct (epoch_loop _ _ _ _ _ _ _ _ _) as [[[[] | e] ts] |] eqn:Ee; try discriminate.
  apply epoch_loop_reports in Ee as [Hs Hl]; [| exact HB | reflexivity].
  cbn [global_step] in Hs. rewrite length_seq in Hs.
  unfold PRINT_NET. destruct (print_net _); [| discriminate].
  intros [= <- _]. rewrite Hl, Hs. reflexivity.
Qed.

(** X22. [train] switches the network to training mode and never back:
    however the run ends, the network it leaves has the same chain of widths,
    layers that follow it, and every layer in training mode. *)
Theorem train_leaves_training_mode (g_batch_size : option Z)
    (permutation : nat -> list nat) (m : MLP F) (epochs : nat) (lr : F) inputs
    (input_labels : ndarray Z) (batch_size : nat) (r : res (list F)) (m' : MLP F) :
  mlp_wf m ->
  train g_batch_size permutation m epochs lr inputs input_labels batch_size
    = Some (r, m') ->
  layer_size m' = layer_size m /\
  mlp_wf m' /\
  Forall (fun l => nn_training l = true) (layers m').
Proof.
  intros Hwf. pose proof (MLP_train_ready m Hwf) as Hr0.
  assert (Hgoal : forall m2 : MLP F, ready (layer_size m) m2 ->
            layer_size m2 = layer_size m /\ mlp_wf m2 /\
            Forall (fun l => nn_training l = true) (layers m2)).
  { intros m2 (H1 & H2 & H3). unfold mlp_wf. rewrite H1. auto. }
  unfold train.
  destruct (argmax_axis1 input_labels) as [labels |].
  - destruct (epoch_loop _ _ _ _ _ _ _ _ _) as [[r1 ts] |] eqn:Ee; [| discriminate].
    assert (Hr : ready (layer_size m) (mlp ts))
      by (eapply epoch_loop_ready; [| exact Ee]; exact Hr0).
    destruct r1 as [[] | e].
    + unfold PRINT_NET. destruct (print_net _); intros [= _ <-]; apply Hgoal, Hr.
    + intros [= _ <-]. apply Hgoal, Hr.
  - intros [= _ <-]. apply Hgoal, Hr0.
Qed.

(** X23. With no epoch to run or an empty dataset, [train] makes no step:
    on a network whose layers follow its chain of widths it returns the empty
    list of losses and the network as [mlp.train()] leaves it. *)
Theorem train_without_steps (g_batch_size : option Z) (permutation : nat -> list nat)
    (m : MLP F) (epochs : nat) (lr : F) inputs (input_labels : ndarray Z)
    (batch_size : nat) :
  mlp_wf m ->
  0 < ncols input_labels ->
  epochs = 0 \/ nrows inputs = 0 ->
  train g_batch_size permutation m epochs lr inputs input_labels batch_size
    = Some (Ok [], (MLP_train m).2).
Proof.
  intros Hwf HK Hcase. unfold train, argmax_axis1.
  destruct (Nat.eqb_spec (ncols input_labels) 0); [lia |].
  assert (He : forall labels ts,
             epoch_loop (seq 0 epochs) g_batch_size lr inputs labels permutation
                        (nrows inputs) batch_size ts = Some (Ok tt, ts)).
  { intros labels ts. destruct Hcase as [-> | HN]; [reflexivity |].
    rewrite HN. generalize (seq 0 epochs). intros es.
    induction es as [| epoch es IH]; [reflexivity |]. cbn. exact IH. }
  rewrite He. cbn [mlp loss_list]. unfold PRINT_NET.
  rewrite (print_net_wf (layer_size m)); [reflexivity |].
  apply (MLP_mode_wf m Hwf).
Qed.

(** * Labels: from one-hot rows back to class numbers *)

Lemma argmax_from_le (l : list Z) (best : Z) (besti i : nat) :
  Forall (fun v => (v <= best)%Z) l -> argmax_from best besti i l = besti.
Proof.
  revert i. induction l as [| v l IH]; intros i Hl; cbn; [reflexivity |].
  apply Forall_cons in Hl as [Hv Hl].
  destruct (Z.ltb_spec best v); [lia |]. apply IH. exact Hl.
Qed.

Lemma argmax_from_first (pre post : list Z) (v best : Z) (besti i : nat) :
  Forall (fun u => (u <= best)%Z) pre ->
  (best < v)%Z ->
  Forall (fun u => (u <= v)%Z) post ->
  argmax_from best besti i (pre ++ v :: post) = i + length pre.
Proof.
  revert i. induction pre as [| u pre IH]; intros i Hpre Hv Hpost; cbn.
  - destruct (Z.ltb_spec best v); [| lia].
    rewrite argmax_from_le by exact Hpost. lia.
  - apply Forall_cons in Hpre as [Hu Hpre].
    destruct (Z.ltb_spec best u); [lia |].
    rewrite IH by assumption. lia.
Qed.

Lemma argmax_row_one_hot (K c : nat) :
  c < K ->
  argmax_row ((fun j => if j =? c then 1%Z else 0%Z) <$> seq 0 K) = c.
Proof.
  intros Hc. destruct K as [| K]; [lia |].
  cbn [seq fmap list_fmap argmax_row].
  destruct c as [| c].
  - cbn. apply argmax_from_le. apply Forall_fmap, Forall_forall.
    intros j Hj. apply elem_of_seq in Hj. cbn.
    destruct (Nat.eqb_spec j 0); lia.
  - change (list_fmap nat Z ?f ?l) with (f <$> l).
    replace K with (c + S (K - S c)) by lia.
    rewrite seq_app, fmap_app. cbn [seq fmap list_fmap].
    change (list_fmap nat Z ?f ?l) with (f <$> l).
    replace (1 + c) with (S c) by lia. rewrite Nat.eqb_refl.
    rewrite argmax_from_first.
    + rewrite length_fmap, length_seq. lia.
    + apply Forall_fmap, Forall_forall. intros j Hj. apply elem_of_seq in Hj. cbn.
      destruct (Nat.eqb_spec j (S c)); lia.
    + cbn. lia.
    + apply Forall_fmap, Forall_forall. intros j Hj. cbn.
      destruct (Nat.eqb_spec j (S c)); lia.
Qed.

Lemma fmap_lookup_total_seq {A} `{Inhabited A} (l : list A) :
  (fun i => l !!! i) <$> seq 0 (length l) = l.
Proof.
  apply list_eq. intros i. rewrite list_lookup_fmap.
  destruct (Nat.lt_ge_cases i (length l)) as [Hi | Hi].
  - rewrite lookup_seq_lt by exact Hi. cbn.
    symmetry. apply list_lookup_lookup_total_lt. exact Hi.
  - rewrite lookup_seq_ge by exact Hi. cbn. symmetry. apply lookup_ge_None_2. exact Hi.
Qed.

(** X24. The labels survive the encoding the script uses: [train] applied
    to the one-hot rows of a list of class numbers below [K] recovers exactly
    these class numbers with its [np.argmax(input_labels, axis=1)]. *)
Theorem argmax_one_hot_round_trip (K : nat) (labels : list nat) :
  0 < K ->
  Forall (fun c => c < K) labels ->
  argmax_axis1 (one_hot_rows K labels) = Ok (Z.of_nat <$> labels).
Proof.
  intros HK Hl. unfold argmax_axis1, one_hot_rows. cbn [ncols nrows tabulate].
  destruct (Nat.eqb_spec K 0); [lia |]. f_equal.
  etransitivity;
    [| apply (f_equal (fmap Z.of_nat)), (fmap_lookup_total_seq labels)].
  rewrite <- list_fmap_compose. apply fmap_seq_ext. intros i Hi. cbn. f_equal.
  assert (Hc : labels !!! i < K).
  { rewrite Forall_forall in Hl. apply Hl. apply list_elem_of_lookup_total_2. lia. }
  etransitivity; [| exact (argmax_row_one_hot K (labels !!! i) Hc)]. f_equal.
  apply fmap_seq_ext. intros j Hj.
  rewrite get_tabulate by lia. reflexivity.
Qed.

(** * The trainer on whole batches *)

Lemma argmax_from_bound (l : list Z) :
  forall (best : Z) (besti i : nat),
    besti < i -> argmax_from best besti i l < i + length l.
Proof.
  induction l as [| v l IH]; intros best besti i Hi; cbn [argmax_from length]; [lia |].
  destruct (best <? v)%Z.
  - specialize (IH v i (S i)). lia.
  - specialize (IH best besti (S i)). lia.
Qed.

Lemma argmax_axis1_ok (labels_onehot : ndarray Z) :
  0 < ncols labels_onehot ->
  exists labels,
    argmax_axis1 labels_onehot = Ok labels /\
    length labels = nrows labels_onehot /\
    Forall (fun l => (0 <= l < Z.of_nat (ncols labels_onehot))%Z) labels.
Proof.
  intros HK. unfold argmax_axis1.
  destruct (Nat.eqb_spec (ncols labels_onehot) 0); [lia |].
  eexists. split; [reflexivity |]. split.
  - rewrite length_fmap, length_seq. reflexivity.
  - apply Forall_fmap, Forall_forall. intros i _. cbn.
    destruct (ncols labels_onehot) as [| K] eqn:EK; [lia |].
    cbn [seq fmap list_fmap argmax_row].
    pose proof (argmax_from_bound
                  (list_fmap nat Z (get labels_onehot i) (seq 1 K))
                  (get labels_onehot i 0) 0 1) as Hb.
    change (list_fmap nat Z ?f ?l) with (f <$> l) in Hb.
    rewrite length_fmap, length_seq in Hb. lia.
Qed.

Lemma forallb_ltb (n : nat) (idx : list nat) :
  Forall (fun i => i < n) idx -> forallb (fun i => i <? n) idx = true.
Proof.
  intros H. apply forallb_forall. intros i Hin.
  rewrite Forall_forall in H. apply Nat.ltb_lt, H, list_elem_of_In, Hin.
Qed.

Lemma MLP_forward_ok (sizes : list nat) (m : MLP F) x (B L0 Lk : nat) :
  layer_size m = sizes ->
  chain_wf sizes (layers m) ->
  head sizes = Some L0 ->
  last sizes = Some Lk ->
  shape x = (B, L0) ->
  exists pred, (MLP_forward x m).1 = Ok pred /\ shape pred = (B, Lk).
Proof.
  intros Hs Hwf Hh Hl Sx. unfold MLP_forward, with_layers.
  destruct (forward_loop_shape _ _ Hwf x B L0 Lk Hh Hl Sx) as (y & Ey & Sy).
  destruct (forward_loop (layers m) x) as [r ls]. cbn in *. eauto.
Qed.

Lemma train_batch_whole (sizes : list nat) (L0 Lk B N s : nat) (lr : F) inputs
    (labels : list Z) (sh : list nat) (ts : train_state F) :
  ready sizes (mlp ts) ->
  head sizes = Some L0 ->
  last sizes = Some Lk ->
  0 < Lk ->
  shape inputs = (N, L0) ->
  length labels = N ->
  Forall (fun l => (0 <= l < Z.of_nat Lk)%Z) labels ->
  length sh = N ->
  Forall (fun i => i < N) sh ->
  0 < B ->
  s + B <= N ->
  exists ts',
    train_batch (Some (Z.of_nat B)) lr inputs labels sh N B s ts = (Ok tt, ts').
Proof.
  intros (Hs & Hwf & Htr) Hh Hl HLk Si Hlen Hlab Hsh Hidx HB Hend.
  unfold shape in Si. injection Si as Ri Ci.
  unfold train_batch.
  replace (Nat.min (s + B) N - s) with B by lia.
  set (batch_idx := take B (drop s sh)).
  assert (Lb : length batch_idx = B).
  { unfold batch_idx. rewrite length_take, length_drop. lia. }
  assert (Fb : Forall (fun i => i < N) batch_idx).
  { unfold batch_idx. apply Forall_take, Forall_drop, Hidx. }
  unfold st_bind, st_lift, take_rows, take_entries.
  rewrite Ri, Hlen, (forallb_ltb N batch_idx Fb).
  set (batch_input := tabulate (length batch_idx) (ncols inputs) _).
  set (batch_label := (fun i => labels !!! i) <$> batch_idx).
  assert (Sb : shape batch_input = (B, L0)).
  { unfold batch_input, shape. cbn. congruence. }
  assert (Llab : length batch_label = B).
  { unfold batch_label. rewrite length_fmap. exact Lb. }
  assert (Flab : Forall (fun l => (0 <= l < Z.of_nat Lk)%Z) batch_label).
  { unfold batch_label. apply Forall_fmap, Forall_forall. intros i Hi. cbn.
    rewrite Forall_forall in Fb. specialize (Fb i Hi).
    rewrite Forall_forall in Hlab. apply Hlab.
    apply list_elem_of_lookup_total_2. lia. }
  destruct (MLP_forward_ok sizes (mlp ts) batch_input B L0 Lk Hs Hwf Hh Hl Sb)
    as (pred & Ef & Sp).
  destruct (loss_head_matching_rows pred batch_label B Lk Sp HLk Llab Flab)
    as (probs & _ & _ & Ec).
  assert (Hwf' : mlp_wf (mlp ts)) by (unfold mlp_wf; rewrite Hs; exact Hwf).
  destruct (MLP_backward_pointwise (Some (Z.of_nat B)) (mlp ts) batch_input batch_label
              lr pred _ _ Hwf' Htr Ef Ec) as (g0 & gs & _ & _ & Eb).
  unfold on_mlp. rewrite Eb.
  destruct (_ =? 0); eexists; reflexivity.
Qed.

Lemma batch_loop_whole (sizes : list nat) (L0 Lk B N k : nat) (lr : F) inputs
    (labels : list Z) (sh : list nat) :
  head sizes = Some L0 ->
  last sizes = Some Lk ->
  0 < Lk ->
  shape inputs = (N, L0) ->
  length labels = N ->
  Forall (fun l => (0 <= l < Z.of_nat Lk)%Z) labels ->
  length sh = N ->
  Forall (fun i => i < N) sh ->
  0 < B ->
  N = k * B ->
  forall (fuel j : nat) (ts : train_state F),
    k - j <= fuel ->
    j <= k ->
    ready sizes (mlp ts) ->
    exists ts',
      batch_loop fuel (Some (Z.of_nat B)) lr inputs labels sh N B (j * B) ts
        = Some (Ok tt, ts') /\
      ready sizes (mlp ts').
Proof.
  intros Hh Hl HLk Si Hlen Hlab Hsh Hidx HB HN.
  induction fuel as [| fuel IH]; intros j ts Hf Hj Hr; cbn [batch_loop];
    destruct (Nat.ltb_spec (j * B) N) as [Hs | Hs].
  - exfalso. assert (j = k) by lia. subst j. lia.
  - eauto.
  - assert (Hjk : j < k) by nia.
    destruct (train_batch_whole sizes L0 Lk B N (j * B) lr inputs labels sh ts
                Hr Hh Hl HLk Si Hlen Hlab Hsh Hidx HB) as (ts1 & E1); [nia |].
    pose proof (train_batch_ready sizes (Some (Z.of_nat B)) lr inputs labels sh N B
                  (j * B) ts Hr) as Hr1.
    rewrite E1 in Hr1 |- *. cbn in Hr1.
    replace (j * B + B) with (S j * B) by lia.
    apply IH; [lia | lia | exact Hr1].
  - eauto.
Qed.

Lemma epoch_loop_whole (sizes : list nat) (L0 Lk B N k : nat) (lr : F) inputs
    (labels : list Z) (permutation : nat -> list nat) :
  head sizes = Some L0 ->
  last sizes = Some Lk ->
  0 < Lk ->
  shape inputs = (N, L0) ->
  length labels = N ->
  Forall (fun l => (0 <= l < Z.of_nat Lk)%Z) labels ->
  0 < B ->
  N = k * B ->
  forall (es : list nat) (ts : train_state F),
    Forall (fun e => length (permutation e) = N /\
                     Forall (fun i => i < N) (permutation e)) es ->
    ready sizes (mlp ts) ->
    exists ts',
      epoch_loop es (Some (Z.of_nat B)) lr inputs labels permutation N B ts
        = Some (Ok tt, ts') /\
      ready sizes (mlp ts').
Proof.
  intros Hh Hl HLk Si Hlen Hlab HB HN.
  induction es as [| epoch es IH]; intros ts Hperm Hr; cbn [epoch_loop]; [eauto |].
  apply Forall_cons in Hperm as [[Hsh Hidx] Hperm].
  destruct (batch_loop_whole sizes L0 Lk B N k lr inputs labels (permutation epoch)
              Hh Hl HLk Si Hlen Hlab Hsh Hidx HB HN N 0 ts) as (ts1 & E1 & Hr1);
    [nia | lia | exact Hr |].
  cbn [Nat.mul] in E1. rewrite E1. apply IH; assumption.
Qed.

Lemma train_whole_batches_ok (permutation : nat -> list nat) (m : MLP F)
    (epochs : nat) (lr : F) inputs (input_labels : ndarray Z)
    (batch_size N L0 Lk k : nat) :
  mlp_wf m ->
  head (layer_size m) = Some L0 ->
  last (layer_size m) = Some Lk ->
  0 < Lk ->
  shape inputs = (N, L0) ->
  shape input_labels = (N, Lk) ->
  0 < batch_size ->
  N = k * batch_size ->
  (forall e, e < epochs ->
     length (permutation e) = N /\ Forall (fun i => i < N) (permutation e)) ->
  exists losses m',
    train (Some (Z.of_nat batch_size)) permutation m epochs lr inputs input_labels
          batch_size
    = Some (Ok losses, m').
Proof.
  intros Hwf Hh Hl HLk Si Sl HB HN Hperm.
  unfold shape in Sl. injection Sl as Rl Cl.
  destruct (argmax_axis1_ok input_labels) as (labels & Ea & Hlen & Hlab); [lia |].
  rewrite Rl in Hlen. rewrite Cl in Hlab.
  pose proof (MLP_train_ready m Hwf) as Hr0.
  assert (Hes : Forall (fun e => length (permutation e) = N /\
                                 Forall (fun i => i < N) (permutation e))
                       (seq 0 epochs)).
  { apply Forall_forall. intros e He. apply elem_of_seq in He. apply Hperm. lia. }
  destruct (epoch_loop_whole (layer_size m) L0 Lk batch_size N k lr inputs labels
              permutation Hh Hl HLk Si Hlen Hlab HB HN (seq 0 epochs)
              (mkTrain (MLP_train m).2 0 f_zero []) Hes Hr0) as (ts & Ee & Hr).
  unfold train. rewrite Ea.
  assert (EN : nrows inputs = N) by (unfold shape in Si; congruence).
  rewrite EN, Ee. unfold PRINT_NET.
  destruct Hr as (_ & Hwf' & _).
  rewrite (print_net_wf _ _ Hwf'). eauto.
Qed.

(** X25. If [batch_size] divides the number of samples and is the value
    of the module-level [batch_size], the inputs have the width of the
    network's first layer, the labels are rows of as many columns as the
    network has outputs, and each epoch's shuffling has one entry per sample,
    each a valid sample number, then [train] returns its list of losses: no
    step of no epoch raises. *)
Theorem train_completes_on_whole_batches (permutation : nat -> list nat) (m : MLP F)
    (epochs : nat) (lr : F) inputs (input_labels : ndarray Z)
    (batch_size N L0 Lk k : nat) :
  mlp_wf m ->
  head (layer_size m) = Some L0 ->
  last (layer_size m) = Some Lk ->
  0 < Lk ->
  shape inputs = (N, L0) ->
  shape input_labels = (N, Lk) ->
  0 < batch_size ->
  N = k * batch_size ->
  (forall e, e < epochs ->
     length (permutation e) = N /\ Forall (fun i => i < N) (permutation e)) ->
  exists losses m',
    train (Some (Z.of_nat batch_size)) permutation m epochs lr inputs input_labels
          batch_size
    = Some (Ok losses, m').
Proof.
  exact (train_whole_batches_ok permutation m epochs lr inputs input_labels
           batch_size N L0 Lk k).
Qed.

(** * Shape checks, the unbound global and short batches *)

(** X26. [LinearLayer.backward] rejects a gradient that does not fit:
    with a cached input, a gradient whose number of rows is not that of the
    cached input, or whose number of columns is not that of the weights,
    raises [ValueError] and leaves the layer as it was. *)
Theorem LinearLayer_backward_shape_mismatch (self : LinearLayer F) x grad_y :
  last_input self = Some x ->
  nrows grad_y <> nrows x \/ ncols grad_y <> ncols (weights self) ->
  LinearLayer_backward self grad_y = (Raise ValueError, self).
Proof.
  intros Hx Hmis. unfold LinearLayer_backward, matmul. rewrite Hx.
  change (ncols (transpose x)) with (nrows x).
  change (nrows (transpose (weights self))) with (ncols (weights self)).
  destruct (Nat.eqb_spec (nrows x) (nrows grad_y)) as [E1 | E1]; [| reflexivity].
  cbn [mbind res_bind].
  destruct (Nat.eqb_spec (ncols grad_y) (ncols (weights self))) as [E2 | E2];
    [| reflexivity].
  destruct Hmis; congruence.
Qed.

Lemma NNLayer_forward_params (l l' : NNLayer F) x :
  nn_params l = nn_params l' ->
  (NNLayer_forward l x).1 = (NNLayer_forward l' x).1 /\
  nn_params (NNLayer_forward l x).2 = nn_params (NNLayer_forward l' x).2.
Proof.
  destruct l as [l | t], l' as [l' | t']; cbn; intros E; try discriminate.
  - injection E as Ew Eb. unfold LinearLayer_forward. cbn [fst snd].
    assert (H1 : forall s : LinearLayer F,
              weights (if training s then set_last_input (Some x) s else s) = weights s)
      by (intros s; destruct (training s); reflexivity).
    assert (H2 : forall s : LinearLayer F,
              bias (if training s then set_last_input (Some x) s else s) = bias s)
      by (intros s; destruct (training s); reflexivity).
    rewrite !H1, !H2, Ew, Eb. split; [reflexivity |].
    cbn [nn_params]. rewrite !H1, !H2, Ew, Eb. reflexivity.
  - auto.
Qed.

(** X27. The output of [MLP.forward] depends on the weights and biases
    only: two networks with the same parameters, layer by layer, give the same
    result on every input, whatever their modes and cached inputs.  In
    particular [mlp.train()] and [mlp.eval()] do not change what the network
    predicts. *)
Theorem MLP_forward_depends_on_parameters (m m' : MLP F) x :
  (nn_params <$> layers m = nn_params <$> layers m' ->
   (MLP_forward x m).1 = (MLP_forward x m').1) /\
  (MLP_forward x (MLP_train m).2).1 = (MLP_forward x m).1 /\
  (MLP_forward x (MLP_eval m).2).1 = (MLP_forward x m).1.
Proof.
  assert (Hgen : forall (ls ls' : list (NNLayer F)) y,
            nn_params <$> ls = nn_params <$> ls' ->
            (forward_loop ls y).1 = (forward_loop ls' y).1).
  { induction ls as [| l ls IH]; intros [| l' ls'] y E; try discriminate;
      [reflexivity |].
    rewrite !fmap_cons in E. injection E as El Els.
    destruct (NNLayer_forward_params l l' y El) as [E1 _].
    cbn [forward_loop].
    destruct (NNLayer_forward l y) as [r1 l1], (NNLayer_forward l' y) as [r2 l2].
    cbn in E1. subst r2. destruct r1 as [z | e]; [| reflexivity].
    specialize (IH ls' z Els).
    destruct (forward_loop ls z), (forward_loop ls' z). exact IH. }
  assert (Hm : forall m1 m2 : MLP F,
            nn_params <$> layers m1 = nn_params <$> layers m2 ->
            (MLP_forward x m1).1 = (MLP_forward x m2).1).
  { intros m1 m2 E. unfold MLP_forward, with_layers.
    specialize (Hgen (layers m1) (layers m2) x E).
    destruct (forward_loop (layers m1) x), (forward_loop (layers m2) x). exact Hgen. }
  split; [apply Hm |]. split; apply Hm; cbn;
    rewrite <- list_fmap_compose; apply list_fmap_ext; intros i [l | t] _; reflexivity.
Qed.

Lemma train_batch_reaches_head (sizes : list nat) (L0 Lk B N s : nat)
    (g_batch_size : option Z) (lr : F) inputs (labels : list Z) (sh : list nat)
    (ts : train_state F) (e : exn) :
  ready sizes (mlp ts) ->
  head sizes = Some L0 ->
  last sizes = Some Lk ->
  shape inputs = (N, L0) ->
  length labels = N ->
  length sh = N ->
  Forall (fun i => i < N) sh ->
  s < N ->
  (forall pred (batch_label : list Z),
      shape pred = (Nat.min B (N - s), Lk) ->
      length batch_label = Nat.min B (N - s) ->
      SoftmaxCrossEntropy_call g_batch_size pred batch_label = Raise e) ->
  exists ts', train_batch g_batch_size lr inputs labels sh N B s ts = (Raise e, ts').
Proof.
  intros (Hs & Hwf & Htr) Hh Hl Si Hlen Hsh Hidx Hlt Hhead.
  unfold shape in Si. injection Si as Ri Ci.
  unfold train_batch.
  replace (Nat.min (s + B) N - s) with (Nat.min B (N - s)) by lia.
  set (rows := Nat.min B (N - s)) in *.
  set (batch_idx := take rows (drop s sh)).
  assert (Lb : length batch_idx = rows).
  { unfold batch_idx. rewrite length_take, length_drop. lia. }
  assert (Fb : Forall (fun i => i < N) batch_idx).
  { unfold batch_idx. apply Forall_take, Forall_drop, Hidx. }
  unfold st_bind, st_lift, take_rows, take_entries.
  rewrite Ri, Hlen, (forallb_ltb N batch_idx Fb).
  set (batch_input := tabulate (length batch_idx) (ncols inputs) _).
  set (batch_label := (fun i => labels !!! i) <$> batch_idx).
  assert (Sb : shape batch_input = (rows, L0)).
  { unfold batch_input, shape. cbn. congruence. }
  assert (Llab : length batch_label = rows).
  { unfold batch_label. rewrite length_fmap. exact Lb. }
  destruct (MLP_forward_ok sizes (mlp ts) batch_input rows L0 Lk Hs Hwf Hh Hl Sb)
    as (pred & Ef & Sp).
  specialize (Hhead pred batch_label Sp Llab).
  unfold on_mlp, MLP_backward, st_bind, st_lift.
  destruct (MLP_forward batch_input (mlp ts)) as [r m1]. cbn in Ef. subst r.
  rewrite Hhead. eexists. reflexivity.
Qed.

(** X28. If the module-level name [batch_size] is unbound (as it is for a
    caller that imports the module instead of running the script), [train] on
    a dataset that is not empty, with at least one epoch and inputs and labels
    of the right widths, raises [NameError] in its first step. *)
Theorem train_unbound_global_raises (permutation : nat -> list nat) (m : MLP F)
    (epochs : nat) (lr : F) inputs (input_labels : ndarray Z)
    (batch_size N L0 Lk : nat) :
  mlp_wf m ->
  head (layer_size m) = Some L0 ->
  last (layer_size m) = Some Lk ->
  0 < Lk ->
  shape inputs = (N, L0) ->
  shape input_labels = (N, Lk) ->
  0 < batch_size ->
  0 < N ->
  0 < epochs ->
  length (permutation 0) = N /\ Forall (fun i => i < N) (permutation 0) ->
  exists m',
    train None permutation m epochs lr inputs input_labels batch_size
    = Some (Raise NameError, m').
Proof.
  intros Hwf Hh Hl HLk Si Sl HB HN He [Hsh Hidx].
  unfold shape in Sl. injection Sl as Rl Cl.
  destruct (argmax_axis1_ok input_labels) as (labels & Ea & Hlen & Hlab); [lia |].
  rewrite Rl in Hlen.
  pose proof (MLP_train_ready m Hwf) as Hr0.
  destruct (train_batch_reaches_head (layer_size m) L0 Lk batch_size N 0 None lr inputs
              labels (permutation 0) (mkTrain (MLP_train m).2 0 f_zero []) NameError
              Hr0 Hh Hl Si Hlen Hsh Hidx HN) as (ts' & Eb).
  { intros pred bl Sp _. apply loss_head_unbound_global.
    destruct (softmax_ok pred) as (probs & -> & _); [| exact I].
    unfold shape in Sp. injection Sp as _ ->. exact HLk. }
  unfold train. rewrite Ea.
  assert (EN : nrows inputs = N) by (unfold shape in Si; congruence).
  rewrite EN. destruct epochs as [| epochs]; [lia |].
  rewrite <- cons_seq. cbn [epoch_loop].
  destruct N as [| N']; [lia |]. cbn [batch_loop].
  destruct (Nat.ltb_spec 0 (S N')); [| lia].
  rewrite Eb. eauto.
Qed.

Lemma batch_loop_short (sizes : list nat) (L0 Lk B N k : nat) (lr : F) inputs
    (labels : list Z) (sh : list nat) :
  head sizes = Some L0 ->
  last sizes = Some Lk ->
  0 < Lk ->
  shape inputs = (N, L0) ->
  length labels = N ->
  Forall (fun l => (0 <= l < Z.of_nat Lk)%Z) labels ->
  length sh = N ->
  Forall (fun i => i < N) sh ->
  2 <= B ->
  k * B < N < S k * B ->
  forall (fuel j : nat) (ts : train_state F),
    k - j < fuel ->
    j <= k ->
    ready sizes (mlp ts) ->
    exists ts',
      batch_loop fuel (Some (Z.of_nat B)) lr inputs labels sh N B (j * B) ts
        = Some (Raise IndexError, ts').
Proof.
  intros Hh Hl HLk Si Hlen Hlab Hsh Hidx HB HN.
  induction fuel as [| fuel IH]; intros j ts Hf Hj Hr; [lia |].
  cbn [batch_loop]. destruct (Nat.ltb_spec (j * B) N) as [Hs | Hs]; [| nia].
  destruct (Nat.eq_dec j k) as [-> | Hjk].
  - destruct (train_batch_reaches_head sizes L0 Lk B N (k * B) (Some (Z.of_nat B)) lr
                inputs labels sh ts IndexError Hr Hh Hl Si Hlen Hsh Hidx Hs)
      as (ts' & Eb).
    { intros pred bl Sp Lbl. unfold shape in Sp. injection Sp as Rp Cp.
      apply loss_head_row_mismatch.
      - destruct (softmax_ok pred) as (probs & -> & _); [lia | exact I].
      - congruence.
      - lia.
      - rewrite Rp. lia. }
    rewrite Eb. eauto.
  - destruct (train_batch_whole sizes L0 Lk B N (j * B) lr inputs labels sh ts
                Hr Hh Hl HLk Si Hlen Hlab Hsh Hidx) as (ts1 & E1); [lia | nia |].
    pose proof (train_batch_ready sizes (Some (Z.of_nat B)) lr inputs labels sh N B
                  (j * B) ts Hr) as Hr1.
    rewrite E1 in Hr1 |- *. cbn in Hr1.
    replace (j * B + B) with (S j * B) by lia.
    apply IH; [lia | lia | exact Hr1].
Qed.

(** X29. If [batch_size] is at least 2, is the value of the module-level
    [batch_size] and does not divide the number of samples, then [train] with
    at least one epoch (and inputs, labels and shuffling as they should be)
    raises [IndexError] in its first epoch: the whole batches are processed
    and the short last batch fails in the loss head. *)
Theorem train_raises_on_short_batch (permutation : nat -> list nat) (m : MLP F)
    (epochs : nat) (lr : F) inputs (input_labels : ndarray Z)
    (batch_size N L0 Lk k : nat) :
  mlp_wf m ->
  head (layer_size m) = Some L0 ->
  last (layer_size m) = Some Lk ->
  0 < Lk ->
  shape inputs = (N, L0) ->
  shape input_labels = (N, Lk) ->
  2 <= batch_size ->
  k * batch_size < N < S k * batch_size ->
  0 < epochs ->
  length (permutation 0) = N /\ Forall (fun i => i < N) (permutation 0) ->
  exists m',
    train (Some (Z.of_nat batch_size)) permutation m epochs lr inputs input_labels
          batch_size
    = Some (Raise IndexError, m').
Proof.
  intros Hwf Hh Hl HLk Si Sl HB HN He [Hsh Hidx].
  unfold shape in Sl. injection Sl as Rl Cl.
  destruct (argmax_axis1_ok input_labels) as (labels & Ea & Hlen & Hlab); [lia |].
  rewrite Rl in Hlen. rewrite Cl in Hlab.
  pose proof (MLP_train_ready m Hwf) as Hr0.
  destruct (batch_loop_short (layer_size m) L0 Lk batch_size N k lr inputs labels
              (permutation 0) Hh Hl HLk Si Hlen Hlab Hsh Hidx HB HN N 0
              (mkTrain (MLP_train m).2 0 f_zero [])) as (ts' & Eb);
    [nia | lia | exact Hr0 |].
  cbn [Nat.mul] in Eb.
  unfold train. rewrite Ea.
  assert (EN : nrows inputs = N) by (unfold shape in Si; congruence).
  rewrite EN. destruct epochs as [| epochs]; [lia |].
  rewrite <- cons_seq. cbn [epoch_loop]. rewrite Eb. eauto.
Qed.

End Properties.

(** ** The statements above at the concrete network and batch *)

Lemma LinearLayer_backward_gradients_witness :
  exists grad_x grad_weights grad_bias,
    LinearLayer_backward demo_linear demo_grad =
      (Ok (grad_x, Some (weights demo_linear), Some grad_weights,
           Some (bias demo_linear), Some grad_bias), demo_linear) /\
    shape grad_bias = (1, 3) /\
    (forall j, j < 3 ->
       get grad_bias 0 j = f_sum ((fun i => get demo_grad i j) <$> seq 0 4)) /\
    shape grad_weights = (2, 3) /\
    (forall i j, i < 2 -> j < 3 ->
       get grad_weights i j =
         f_sum ((fun k => f_mul (get demo_batch k i) (get demo_grad k j)) <$> seq 0 4)) /\
    shape grad_x = (4, 2) /\
    (forall i j, i < 4 -> j < 2 ->
       get grad_x i j =
         f_sum ((fun k => f_mul (get demo_grad i k) (get (weights demo_linear) j k))
                  <$> seq 0 3)).
Proof.
  apply (LinearLayer_backward_gradients demo_linear demo_batch demo_grad 4);
    reflexivity.
Defined.

Lemma eval_mode_keeps_cached_input_witness :
  let self := Linear (LinearLayer_eval demo_linear) in
  let l1 := (NNLayer_forward (NNLayer_train self) demo_batch).2 in
  let l2 := foldl NNLayer_step (NNLayer_eval l1)
                  [OpForward demo_grad; OpEval; OpForward demo_input] in
  nn_last_input l2 = Some demo_batch /\
  (NNLayer_backward l2 demo_grad).1 = (NNLayer_backward l1 demo_grad).1.
Proof.
  intros self l1 l2.
  destruct (eval_mode_keeps_cached_input (NNLayer_train self) demo_batch
              [OpForward demo_grad; OpEval; OpForward demo_input] demo_grad)
    as (_ & _ & H1 & _ & H2 & _).
  - reflexivity.
  - repeat constructor.
  - split; [exact H1 | exact H2].
Defined.

Lemma demo_mlp_wf : mlp_wf demo_mlp.
Proof.
  unfold mlp_wf.
  apply chain_wf_cons; [split; reflexivity |].
  apply chain_wf_cons; [split; reflexivity |].
  apply chain_wf_cons; [split; reflexivity |].
  apply chain_wf_last. split; reflexivity.
Qed.

Lemma MLP_forward_shape_witness :
  exists y, (MLP_forward demo_input demo_mlp).1 = Ok y /\ shape y = (2, 4).
Proof.
  apply (MLP_forward_shape demo_mlp demo_input 2 10 4).
  - exact demo_mlp_wf.
  - reflexivity.
  - reflexivity.
  - lia.
  - reflexivity.
Defined.

Lemma demo_mlp_training : Forall (fun l => nn_training l = true) (layers demo_mlp).
Proof. repeat constructor. Qed.

Lemma demo_forward : (MLP_forward demo_input demo_mlp).1 = Ok demo_pred.
Proof. reflexivity. Qed.

Lemma demo_loss_head :
  SoftmaxCrossEntropy_call (Some 2%Z) demo_pred demo_label = Ok demo_loss_grad.
Proof. reflexivity. Qed.

Lemma MLP_backward_updates_after_sweep_witness :
  let m1 := (MLP_forward demo_input demo_mlp).2 in
  exists g0 gs,
    backprop (layers m1) demo_loss_grad.2 = Ok (g0, gs) /\
    Forall2 grads_fit (layers m1) gs /\
    MLP_backward (Some 2%Z) demo_input demo_label 1%R demo_mlp =
      (Ok demo_loss_grad.1,
       mkMLP (layer_size demo_mlp) (zip_with (sgd_layer 1%R) (layers m1) gs)).
Proof.
  intros m1.
  destruct (MLP_backward_updates_after_sweep (Some 2%Z) demo_mlp demo_input
              demo_label 1%R) as (_ & _ & H).
  apply (H demo_mlp_wf demo_mlp_training demo_pred demo_loss_grad.1 demo_loss_grad.2).
  - exact demo_forward.
  - rewrite demo_loss_head. destruct demo_loss_grad; reflexivity.
Defined.

(** ** The further properties at concrete inputs *)

Lemma LinearLayer_forward_affine_witness :
  exists y,
    (LinearLayer_forward demo_linear demo_batch).1 = Ok y /\
    shape y = (4, 3) /\
    forall i j, i < 4 -> j < 3 ->
      get y i j =
        f_add (f_sum ((fun k => f_mul (get demo_batch i k) (get (weights demo_linear) k j))
                        <$> seq 0 2))
              (get (bias demo_linear) 0 j).
Proof.
  apply (LinearLayer_forward_affine demo_linear demo_batch 4 2 3).
  - split; reflexivity.
  - reflexivity.
Defined.

Lemma Tanh_backward_gradient_witness :
  exists grad_x,
    Tanh_backward demo_tanh demo_grad = (Ok (grad_x, None, None, None, None), demo_tanh) /\
    shape grad_x = shape demo_grad /\
    forall i j, i < 4 -> j < 3 ->
      get grad_x i j =
        f_mul (f_sub f_one (f_pow (f_tanh (get demo_grad i j)) 2)) (get demo_grad i j).
Proof.
  apply (Tanh_backward_gradient demo_tanh demo_grad demo_grad); reflexivity.
Defined.

Lemma Tanh_backward_broadcasts_witness :
  (exists grad_x,
     (Tanh_backward demo_tanh demo_row).1 = Ok (grad_x, None, None, None, None) /\
     shape grad_x = (4, 3)) /\
  (Tanh_backward demo_tanh demo_two_rows).1 = Raise ValueError.
Proof.
  split.
  - apply (Tanh_backward_broadcasts demo_tanh demo_grad demo_row 4 1 3); reflexivity.
  - apply (Tanh_backward_broadcasts demo_tanh demo_grad demo_two_rows 4 2 3);
      try reflexivity; lia.
Defined.

Lemma loss_head_rejects_other_batch_sizes_witness :
  SoftmaxCrossEntropy_call (Some 10%Z) demo_scores [0; 1; 2]%Z = Raise IndexError.
Proof.
  apply (loss_head_rejects_other_batch_sizes 10%Z demo_scores [0; 1; 2]%Z).
  - cbn. lia.
  - reflexivity.
  - lia.
  - cbn. lia.
Defined.

Lemma loss_head_gradient_when_rows_match_witness :
  exists probs,
    softmax demo_scores = Ok probs /\ shape probs = (3, 4) /\
    SoftmaxCrossEntropy_call (Some 3%Z) demo_scores [0; 3; 1]%Z =
      Ok (mean (f_neg <$> (f_log <$>
                  ((fun p : nat * nat => get probs p.1 p.2)
                     <$> zip (seq 0 3) [0; 3; 1]))),
          tabulate 3 4 (fun i j =>
            f_div (f_sub (get probs i j) (one_hot_entry [0; 3; 1] i j)) (f_of_Z 3))).
Proof.
  apply (loss_head_gradient_when_rows_match demo_scores [0; 3; 1]%Z 3 4).
  - reflexivity.
  - lia.
  - reflexivity.
  - repeat constructor; lia.
Defined.

Lemma loss_head_negative_labels_wrap_witness :
  SoftmaxCrossEntropy_call (Some 3%Z) demo_scores [3; 2; 0]%Z
  = SoftmaxCrossEntropy_call (Some 3%Z) demo_scores [-1; -2; 0]%Z.
Proof.
  apply (loss_head_negative_labels_wrap (Some 3%Z) demo_scores [-1; -2; 0]%Z).
  repeat constructor; cbn; lia.
Defined.



Lemma demo_fresh_mlp_init : MLP_init demo_noise = Ok demo_fresh_mlp.
Proof. reflexivity. Qed.

Lemma demo_fresh_mlp_wf : mlp_wf demo_fresh_mlp.
Proof.
  apply (MLP_init_sizes_wf [10; 10; 8; 8; 4] demo_noise); [discriminate |].
  exact demo_fresh_mlp_init.
Qed.

Lemma demo_fresh_mlp_fresh :
  Forall (fun l => nn_training l = false /\ nn_last_input l = None)
         (layers demo_fresh_mlp).
Proof. repeat constructor. Qed.

Lemma MLP_init_sizes_outcome_witness :
  (exists m,
     MLP_init_sizes [3; 2; 4] demo_noise = Ok m /\
     layer_size m = [3; 2; 4] /\
     length (layers m) = 3 /\
     ([3; 2; 4] <> [] -> mlp_wf m) /\
     Forall (fun l => nn_training l = false /\ nn_last_input l = None) (layers m)) /\
  MLP_init_sizes [3; 0; 4] demo_noise = Raise ZeroDivisionError.
Proof.
  split.
  - apply (MLP_init_sizes_outcome [3; 2; 4] demo_noise). repeat constructor.
  - apply (MLP_init_sizes_outcome [3; 0; 4] demo_noise).
    apply Exists_cons_tl, Exists_cons_hd. reflexivity.
Defined.

Lemma MLP_forward_eval_mode_pure_witness :
  (MLP_forward demo_input demo_fresh_mlp).2 = demo_fresh_mlp.
Proof.
  apply (proj1 (MLP_forward_eval_mode_pure demo_fresh_mlp demo_input)).
  repeat constructor.
Defined.

Lemma MLP_forward_width_mismatch_witness :
  exists l0 ls,
    layers demo_mlp = Linear l0 :: ls /\
    MLP_forward demo_narrow_input demo_mlp =
      (Raise ValueError,
       mkMLP (layer_size demo_mlp)
             (Linear (if training l0 then set_last_input (Some demo_narrow_input) l0
                      else l0) :: ls)).
Proof.
  apply (MLP_forward_width_mismatch demo_mlp demo_narrow_input 10 10 [8; 8; 4]).
  - exact demo_mlp_wf.
  - reflexivity.
  - cbn. lia.
Defined.

Lemma MLP_backward_keeps_invariants_witness :
  mlp_wf (MLP_backward (Some 2%Z) demo_input demo_label 1%R demo_mlp).2 /\
  Forall (fun l => nn_training l = true)
         (layers (MLP_backward (Some 2%Z) demo_input demo_label 1%R demo_mlp).2).
Proof.
  apply (MLP_backward_keeps_invariants (Some 2%Z) demo_mlp demo_input demo_label 1%R).
  - exact demo_mlp_wf.
  - exact demo_mlp_training.
Defined.

Lemma MLP_backward_failure_keeps_parameters_witness :
  nn_params <$> layers (MLP_backward None demo_input demo_label 1%R demo_mlp).2
  = nn_params <$> layers demo_mlp.
Proof.
  apply (MLP_backward_failure_keeps_parameters None demo_mlp demo_input demo_label
           1%R NameError).
  - exact demo_mlp_wf.
  - exact demo_mlp_training.
  - reflexivity.
Defined.

Lemma MLP_backward_without_train_witness :
  (MLP_backward (Some 2%Z) demo_input demo_label 1%R demo_fresh_mlp).2 = demo_fresh_mlp /\
  ~ is_Ok (MLP_backward (Some 2%Z) demo_input demo_label 1%R demo_fresh_mlp).1.
Proof.
  destruct (MLP_backward_without_train (Some 2%Z) demo_fresh_mlp demo_input demo_label 1%R)
    as (H1 & H2 & _).
  - exact demo_fresh_mlp_wf.
  - cbn. lia.
  - exact demo_fresh_mlp_fresh.
  - split; [exact H1 | exact H2].
Defined.

Lemma argmax_one_hot_round_trip_witness :
  argmax_axis1 (one_hot_rows 4 [2; 0; 3; 3; 1]) = Ok [2; 0; 3; 3; 1]%Z.
Proof.
  apply (argmax_one_hot_round_trip 4 [2; 0; 3; 3; 1]).
  - lia.
  - repeat constructor.
Defined.

Lemma train_terminates_witness :
  train (Some 10%Z) demo_permutation demo_fresh_mlp 3 1%R demo_dataset4 demo_onehot4 3
    <> None.
Proof.
  apply (train_terminates (Some 10%Z) demo_permutation demo_fresh_mlp 3 1%R
           demo_dataset4 demo_onehot4 3).
  lia.
Defined.

Lemma train_zero_batch_size_never_returns_witness :
  train (Some 0%Z) demo_permutation demo_fresh_mlp 1 1%R demo_dataset4 demo_onehot4 0
    <> Some (Ok [], demo_fresh_mlp).
Proof.
  apply (train_zero_batch_size_never_returns (Some 0%Z) demo_permutation demo_fresh_mlp
           1 1%R demo_dataset4 demo_onehot4 [] demo_fresh_mlp).
  - cbn. lia.
  - lia.
Defined.

Lemma train_completes_on_whole_batches_witness :
  exists losses m',
    train (Some 2%Z) demo_permutation demo_fresh_mlp 3 1%R demo_dataset4 demo_onehot4 2
    = Some (Ok losses, m').
Proof.
  apply (train_completes_on_whole_batches demo_permutation demo_fresh_mlp 3 1%R
           demo_dataset4 demo_onehot4 2 4 10 4 2).
  - exact demo_fresh_mlp_wf.
  - reflexivity.
  - reflexivity.
  - lia.
  - reflexivity.
  - reflexivity.
  - lia.
  - reflexivity.
  - intros e _. split; [reflexivity | repeat constructor].
Defined.

Lemma demo_run_completes :
  exists losses m',
    train (Some 2%Z) demo_permutation demo_fresh_mlp 3 1%R demo_dataset4 demo_onehot4 2
    = Some (Ok losses, m').
Proof.
  apply (train_whole_batches_ok demo_permutation demo_fresh_mlp 3 1%R
           demo_dataset4 demo_onehot4 2 4 10 4 2);
    try reflexivity; try lia.
  - exact demo_fresh_mlp_wf.
  - intros e _. split; [reflexivity | repeat constructor].
Qed.

Lemma train_report_count_witness :
  exists losses m',
    train (Some 2%Z) demo_permutation demo_fresh_mlp 3 1%R demo_dataset4 demo_onehot4 2
      = Some (Ok losses, m') /\
    length losses = 1.
Proof.
  destruct demo_run_completes as (losses & m' & E). exists losses, m'.
  split; [exact E |].
  apply (train_report_count (Some 2%Z) demo_permutation demo_fresh_mlp 3 1%R
           demo_dataset4 demo_onehot4 2 losses m').
  - lia.
  - exact E.
Defined.

Lemma train_leaves_training_mode_witness :
  exists r m',
    train (Some 2%Z) demo_permutation demo_fresh_mlp 3 1%R demo_dataset4 demo_onehot4 2
      = Some (r, m') /\
    layer_size m' = [10; 10; 8; 8; 4] /\
    mlp_wf m' /\
    Forall (fun l => nn_training l = true) (layers m').
Proof.
  destruct demo_run_completes as (losses & m' & E). exists (Ok losses), m'.
  split; [exact E |].
  apply (train_leaves_training_mode (Some 2%Z) demo_permutation demo_fresh_mlp 3 1%R
           demo_dataset4 demo_onehot4 2 (Ok losses) m').
  - exact demo_fresh_mlp_wf.
  - exact E.
Defined.

Lemma train_without_steps_witness :
  train None demo_permutation demo_fresh_mlp 0 1%R demo_dataset4 demo_onehot4 2
    = Some (Ok [], (MLP_train demo_fresh_mlp).2).
Proof.
  apply (train_without_steps None demo_permutation demo_fresh_mlp 0 1%R
           demo_dataset4 demo_onehot4 2).
  - exact demo_fresh_mlp_wf.
  - cbn. lia.
  - left. reflexivity.
Defined.


Lemma LinearLayer_backward_shape_mismatch_witness :
  LinearLayer_backward demo_linear demo_two_rows = (Raise ValueError, demo_linear).
Proof.
  apply (LinearLayer_backward_shape_mismatch demo_linear demo_batch demo_two_rows).
  - reflexivity.
  - left. cbn. lia.
Defined.

Lemma MLP_forward_depends_on_parameters_witness :
  (MLP_forward demo_input demo_mlp).1 = (MLP_forward demo_input demo_fresh_mlp).1.
Proof.
  apply (proj1 (MLP_forward_depends_on_parameters demo_mlp demo_fresh_mlp demo_input)).
  reflexivity.
Defined.

Lemma train_unbound_global_raises_witness :
  exists m',
    train None demo_permutation demo_fresh_mlp 3 1%R demo_dataset4 demo_onehot4 2
    = Some (Raise NameError, m').
Proof.
  apply (train_unbound_global_raises demo_permutation demo_fresh_mlp 3 1%R
           demo_dataset4 demo_onehot4 2 4 10 4);
    try reflexivity; try lia.
  - exact demo_fresh_mlp_wf.
  - split; [reflexivity | repeat constructor].
Defined.

Lemma train_raises_on_short_batch_witness :
  exists m',
    train (Some 2%Z) demo_permutation5 demo_fresh_mlp 3 1%R demo_dataset5 demo_onehot5 2
    = Some (Raise IndexError, m').
Proof.
  apply (train_raises_on_short_batch demo_permutation5 demo_fresh_mlp 3 1%R
           demo_dataset5 demo_onehot5 2 5 10 4 2);
    try reflexivity; try lia.
  - exact demo_fresh_mlp_wf.
  - split; [reflexivity | repeat constructor].
Defined.
